(** * The natural-language-to-SQL pipeline of [freelancer_earnings]

    A shallow embedding of [src/db.py], [src/llm.py] and [src/cli.py].

    - A Python [str] is a [string]: one [ascii] per code point, which covers the
      code points below U+0100.  On that range [strip] and [lower] are the
      built-ins of Python exactly.  The Russian literals of the source are kept
      as written; they are only concatenated and echoed, never inspected.
    - The model service and the SQLite store are outside the program: they are
      the fields of [Externals], arbitrary functions over a state of their own.
    - An [async def] is a computation [M A]: it reads the world, leaves the
      list of the events it caused in the order they happened, and either
      returns a value or raises an exception. *)

From Stdlib Require Import String Ascii List Bool Arith Lia.
Import ListNotations.
Open Scope string_scope.

Set Implicit Arguments.

(** ** Python strings *)

Definition str := string.

(** The line feed, written [\n] in the source. *)
Definition LF : str := String (ascii_of_nat 10) "".

(** [str.isspace] for one character: the ASCII table of CPython
    (U+0009..U+000D, U+001C..U+0020) and, below U+0100, U+0085 and U+00A0. *)
Definition isspace (c : ascii) : bool :=
  let n := nat_of_ascii c in
  (((9 <=? n) && (n <=? 13)) || ((28 <=? n) && (n <=? 32))
   || (n =? 133) || (n =? 160))%nat.

(** [str.lower] for one character: A..Z, and U+00C0..U+00DE without the
    multiplication sign U+00D7, move up by 32; everything else stays. *)
Definition lower_char (c : ascii) : ascii :=
  let n := nat_of_ascii c in
  if (((65 <=? n) && (n <=? 90))
      || ((192 <=? n) && (n <=? 222) && negb (n =? 215)))%nat
  then ascii_of_nat (n + 32) else c.

Fixpoint lower (s : str) : str :=
  match s with
  | EmptyString => EmptyString
  | String c r => String (lower_char c) (lower r)
  end.

Fixpoint lstrip (s : str) : str :=
  match s with
  | EmptyString => EmptyString
  | String c r => if isspace c then lstrip r else s
  end.

Fixpoint rstrip (s : str) : str :=
  match s with
  | EmptyString => EmptyString
  | String c r =>
      match rstrip r with
      | EmptyString => if isspace c then EmptyString else String c EmptyString
      | r' => String c r'
      end
  end.

(** [s.strip()] *)
Definition strip (s : str) : str := rstrip (lstrip s).

(** [s.startswith(p)] *)
Definition startswith (s p : str) : bool := String.prefix p s.

(** [s[:-1]]: all but the last character, and the empty string stays empty. *)
Fixpoint but_last (s : str) : str :=
  match s with
  | EmptyString => EmptyString
  | String c EmptyString => EmptyString
  | String c r => String c (but_last r)
  end.

(** [c in s] for a needle of one character. *)
Fixpoint char_in (c : ascii) (s : str) : bool :=
  match s with
  | EmptyString => false
  | String d r => Ascii.eqb d c || char_in c r
  end.

(** [not s] for a string: true on the empty string only. *)
Definition is_empty (s : str) : bool :=
  match s with EmptyString => true | _ => false end.

(** [sep.join(parts)] *)
Fixpoint join (sep : str) (parts : list str) : str :=
  match parts with
  | [] => ""
  | [p] => p
  | p :: rest => p ++ sep ++ join sep rest
  end.

(** A blank string: empty, or every character is whitespace. *)
Fixpoint blank (s : str) : bool :=
  match s with
  | EmptyString => true
  | String c r => isspace c && blank r
  end.

(** ** Exceptions, events and the outside world *)

(** The exception classes the program raises or tells apart.  All of them are
    subclasses of [Exception]; [DatabaseError] is [aiosqlite.DatabaseError]. *)
Inductive exn_class : Type :=
| ValueError
| AttributeError
| DatabaseError
| PlainException.

(** An exception and [str(e)]. *)
Record exn : Type := Exn { exn_class_of : exn_class; exn_text : str }.

Definition is_database_error (e : exn) : bool :=
  match exn_class_of e with DatabaseError => true | _ => false end.

(** [logging.info], [logging.error] and [logging.exception]. *)
Inductive level : Type := INFO | ERROR | EXCEPTION.

(** The three places that open a connection to the store. *)
Inductive site : Type :=
| SchemaLookup   (* get_table_schema_str *)
| DryRun         (* validate_sql *)
| Query.         (* query_db *)

(** The [response_schema] argument of a model call. *)
Inductive response_schema : Type := SchemaSQL | SchemaIntent.

(** [response.parsed]: nothing, or an object of one of the two pydantic
    classes of [llm.py]. *)
Inductive parsed : Type :=
| ParsedNone
| SQLResponse (sql : str)
| IntentResponse (intent : str).

(** Everything the program does that can be seen from outside, in order:
    a line on the terminal, a line of the process log, a record in
    [llm_results.log], a call of the model, a round trip to the store. *)
Inductive event : Type :=
| Echo (line : str)
| Log (lv : level) (msg : str)
| Audit (msg : str)
| ModelCall (prompt : str) (schema : response_schema)
| StoreCall (at_site : site) (stmt : str).

(** The collaborators of the program.  [generate_content] is the awaited call
    of [client.aio.models.generate_content] followed by [response.parsed]
    (temperature is 0.0 at both call sites); [table_info] gives the columns
    [col[1]], [col[2]] of the rows of [PRAGMA table_info]; [conn_execute] is
    [aiosqlite.connect] followed by [conn.execute] and, in [query_db],
    [fetchall].  [repr] is how an f-string prints the fetched rows. *)
Record Externals : Type := {
  Rows : Type;
  repr : Rows -> str;
  Gemini : Type;
  generate_content : Gemini -> str -> response_schema -> Gemini * (exn + parsed);
  Sqlite : Type;
  table_info : Sqlite -> str -> exn + list (str * str);
  conn_execute : Sqlite -> str -> Sqlite * (exn + Rows)
}.

(** ** Computations *)

Record Outcome (W A : Type) : Type :=
  Out { events : list event; world : W; returned : exn + A }.

Definition M (W A : Type) : Type := W -> Outcome W A.

Definition ret {W A} (a : A) : M W A := fun w => Out [] w (inr a).

(** [raise e] *)
Definition raise {W A} (e : exn) : M W A := fun w => Out [] w (inl e).

Definition bind {W A B} (m : M W A) (k : A -> M W B) : M W B :=
  fun w =>
    match m w with
    | Out ev w1 (inl e) => Out ev w1 (inl e)
    | Out ev w1 (inr a) =>
        match k a w1 with
        | Out ev2 w2 r => Out (ev ++ ev2) w2 r
        end
    end.

(** [try: m  except Exception as e: h e] *)
Definition try_except {W A} (m : M W A) (h : exn -> M W A) : M W A :=
  fun w =>
    match m w with
    | Out ev w1 (inl e) =>
        match h e w1 with
        | Out ev2 w2 r => Out (ev ++ ev2) w2 r
        end
    | Out ev w1 (inr a) => Out ev w1 (inr a)
    end.

Definition emit {W} (ev : event) : M W unit := fun w => Out [ev] w (inr tt).

Declare Scope py_scope.
Delimit Scope py_scope with py.
Notation "x <- m ;; k" := (bind m (fun x => k))
  (at level 61, m at next level, right associativity) : py_scope.
Notation "m ;; k" := (bind m (fun _ => k))
  (at level 61, right associativity) : py_scope.
Open Scope py_scope.

(** [for x in xs: body x] *)
Fixpoint for_each {W A} (xs : list A) (body : A -> M W unit) : M W unit :=
  match xs with
  | [] => ret tt
  | x :: rest => body x ;; for_each rest body
  end.

Definition click_echo {W} (line : str) : M W unit := emit (Echo line).
Definition logging_info {W} (msg : str) : M W unit := emit (Log INFO msg).
Definition logging_error {W} (msg : str) : M W unit := emit (Log ERROR msg).
Definition logging_exception {W} (msg : str) : M W unit := emit (Log EXCEPTION msg).

(** The logger [llm_results] writes to [llm_results.log] through its own
    handler and, propagating, to the handlers of the root logger. *)
Definition llm_result_logger_info {W} (msg : str) : M W unit :=
  emit (Audit msg) ;; emit (Log INFO msg).

(** ** The program *)

Section Program.

Variable X : Externals.

(** The state of the two collaborators. *)
Record World : Type := { gemini : Gemini X; sqlite : Sqlite X }.

Definition Py (A : Type) : Type := M World A.

(** One awaited model call. *)
Definition models_generate_content (prompt : str) (schema : response_schema)
  : Py parsed :=
  fun w =>
    let (g, r) := generate_content X (gemini w) prompt schema in
    Out [ModelCall prompt schema] {| gemini := g; sqlite := sqlite w |} r.

(** One connection that runs one statement. *)
Definition store_execute (s : site) (stmt : str) : Py (Rows X) :=
  fun w =>
    let (d, r) := conn_execute X (sqlite w) stmt in
    Out [StoreCall s stmt] {| gemini := gemini w; sqlite := d |} r.

(** One connection that reads [PRAGMA table_info(table_name)]. *)
Definition store_table_info (table_name : str) : Py (list (str * str)) :=
  fun w =>
    Out [StoreCall SchemaLookup ("PRAGMA table_info(" ++ table_name ++ ")")]
        w (table_info X (sqlite w) table_name).

(** *** db.py *)

Definition TABLE_NAME : str := "freelancer_earnings".

Definition query_db (query : str) : Py (Rows X) :=
  try_except
    (result <- store_execute Query query ;;
     logging_info "SQL-запрос выполнен успешно." ;;
     ret result)
    (fun e =>
       if is_database_error e
       then logging_error ("Ошибка выполнения SQL-запроса: " ++ exn_text e) ;;
            raise e
       else logging_exception "Неизвестная ошибка при выполнении SQL-запроса" ;;
            raise e).

Definition get_table_schema_str (table_name : str) : Py str :=
  try_except
    (columns <- store_table_info table_name ;;
     let schema_lines :=
       map (fun col => "- " ++ fst col ++ ": " ++ snd col) columns in
     ret ("Таблица " ++ table_name ++ " содержит следующие поля:" ++ LF
          ++ join LF schema_lines))
    (fun e => logging_exception "Ошибка получения схемы таблицы" ;; raise e).

Definition validate_sql (sql : str) : Py bool :=
  let sql_stripped := lower (strip sql) in
  if negb (startswith sql_stripped "select") then
    logging_error ("Попытка выполнить опасный или неразрешённый SQL: " ++ sql) ;;
    raise (Exn ValueError "Разрешены только SELECT-запросы!")
  else if char_in ";" (but_last sql_stripped) then
    logging_error ("Попытка выполнить множественные SQL-выражения: " ++ sql) ;;
    raise (Exn ValueError "Разрешено только одно SQL-выражение!")
  else
    try_except
      (let explain_sql := "EXPLAIN " ++ sql in
       store_execute DryRun explain_sql ;;
       ret true)
      (fun e =>
         if is_database_error e
         then logging_error ("Некорректный SQL: " ++ exn_text e) ;; raise e
         else logging_exception "Ошибка при валидации SQL" ;; raise e).

(** *** llm.py *)

Definition PROMPT_TEMPLATE (schema question : str) : str :=
  "You are a data analytics assistant. Transform the user's question in Russian into a correct SQL query for the freelancer_earnings table. Do not add explanations, only SQL."
  ++ LF ++ LF ++ schema ++ LF ++ "Question: " ++ question ++ LF ++ "SQL:".

Definition INTENT_PROMPT_TEMPLATE (question : str) : str :=
  LF ++ "You are a data analytics assistant. Determine the intent of the user's question in Russian. Possible intents:"
  ++ LF ++ "- sql: the question requires an SQL query to the freelancer_earnings table"
  ++ LF ++ "- smalltalk: informal question not related to analytics"
  ++ LF ++ "- help: request for help using the system"
  ++ LF ++ "- unknown: could not determine"
  ++ LF ++ LF ++ "Question: " ++ question ++ LF ++ "Intent:" ++ LF.

Definition _generate_content_with_schema (prompt : str)
    (response_schema : response_schema) : Py parsed :=
  try_except
    (models_generate_content prompt response_schema)
    (fun e =>
       logging_exception "Ошибка при генерации контента через LLM" ;;
       raise (Exn PlainException ("Ошибка при генерации контента: " ++ exn_text e))).

(** [result.sql] *)
Definition attr_sql (result : parsed) : Py str :=
  match result with
  | SQLResponse sql => ret sql
  | ParsedNone =>
      raise (Exn AttributeError "'NoneType' object has no attribute 'sql'")
  | IntentResponse _ =>
      raise (Exn AttributeError "'IntentResponse' object has no attribute 'sql'")
  end.

(** [result.intent] *)
Definition attr_intent (result : parsed) : Py str :=
  match result with
  | IntentResponse intent => ret intent
  | ParsedNone =>
      raise (Exn AttributeError "'NoneType' object has no attribute 'intent'")
  | SQLResponse _ =>
      raise (Exn AttributeError "'SQLResponse' object has no attribute 'intent'")
  end.

Definition generate_sql (question : str) : Py str :=
  schema <- get_table_schema_str TABLE_NAME ;;
  let prompt := PROMPT_TEMPLATE schema question in
  try_except
    (result <- _generate_content_with_schema prompt SchemaSQL ;;
     raw <- attr_sql result ;;
     let sql := strip raw in
     logging_info "SQL-запрос сгенерирован через LLM." ;;
     llm_result_logger_info ("Вопрос: " ++ question ++ LF ++ "SQL: " ++ sql) ;;
     ret sql)
    (fun e => logging_exception "Ошибка генерации SQL через LLM" ;;
              ret "SELECT 1").

Definition detect_intent (question : str) : Py str :=
  let prompt := INTENT_PROMPT_TEMPLATE question in
  try_except
    (result <- _generate_content_with_schema prompt SchemaIntent ;;
     raw <- attr_intent result ;;
     let intent := lower (strip raw) in
     logging_info ("Интент определён: " ++ intent) ;;
     llm_result_logger_info ("Вопрос: " ++ question ++ LF ++ "Интент: " ++ intent) ;;
     ret intent)
    (fun e => logging_exception "Ошибка определения интента" ;;
              ret "unknown").

(** *** cli.py *)

Definition EMPTY_QUESTION_MSG : str := "Вопрос не должен быть пустым.".
Definition INFORMAL_MSG : str := "Это неформальный вопрос, не связанный с аналитикой.".
Definition HELP_MSG : str := "Для помощи используйте команду --help.".
Definition UNKNOWN_INTENT_MSG : str := "Не удалось определить тип вопроса.".

(** The line both [ask] and [answer] print when [validate_sql] raises. *)
Definition INVALID_SQL_MSG : str := "Ошибка: сгенерирован некорректный SQL-запрос.".

(** [try: await validate_sql(sql)  except Exception: click.echo(...); return]
    The flag says whether the function goes on after the statement. *)
Definition validate_or_report (sql : str) : Py bool :=
  try_except
    (validate_sql sql ;; ret true)
    (fun _ => click_echo INVALID_SQL_MSG ;; ret false).

(** In the three commands [llm = get_llm_client()] only builds the client
    object; the model behind it is the [gemini] field of the world. *)
Definition ask (question : str) : Py unit :=
  if is_empty (strip question) then click_echo EMPTY_QUESTION_MSG
  else
    try_except
      (intent <- detect_intent question ;;
       if intent =? "sql" then
         sql <- generate_sql question ;;
         click_echo ("SQL: " ++ sql) ;;
         go_on <- validate_or_report sql ;;
         if go_on : bool then
           result <- query_db sql ;;
           click_echo ("Результат: " ++ repr X result)
         else ret tt
       else if intent =? "smalltalk" then click_echo INFORMAL_MSG
       else if intent =? "help" then click_echo HELP_MSG
       else click_echo UNKNOWN_INTENT_MSG)
      (fun e => logging_exception "Ошибка при обработке вопроса" ;;
                click_echo ("Ошибка: " ++ exn_text e)).

Definition answer (question : str) : Py unit :=
  if is_empty (strip question) then click_echo EMPTY_QUESTION_MSG
  else
    try_except
      (intent <- detect_intent question ;;
       if intent =? "sql" then
         sql <- generate_sql question ;;
         go_on <- validate_or_report sql ;;
         if go_on : bool then
           result <- query_db sql ;;
           click_echo ("Ответ: " ++ repr X result)
         else ret tt
       else if intent =? "smalltalk" then click_echo INFORMAL_MSG
       else if intent =? "help" then click_echo HELP_MSG
       else click_echo UNKNOWN_INTENT_MSG)
      (fun e => logging_exception "Ошибка при обработке вопроса" ;;
                click_echo ("Ошибка: " ++ exn_text e)).

Definition questions : list str :=
  [ "Насколько выше доход у фрилансеров, принимающих оплату в криптовалюте, по сравнению с другими способами оплаты?";
    "Как распределяется доход фрилансеров в зависимости от региона проживания?";
    "Какой процент фрилансеров, считающих себя экспертами, выполнил менее 100 проектов?";
    "Средний рейтинг клиентов для проектов длительностью более 30 дней?";
    "Сколько фрилансеров были повторно наняты?";
    "Привет, как дела?";
    "Как пользоваться этой системой?";
    "Сколько будет два плюс два?";
    "Расскажи анекдот.";
    "Помоги с командой для запуска." ].

(** The body of the loop of [demo]. *)
Definition demo_question (q : str) : Py unit :=
  click_echo ("Вопрос: " ++ q) ;;
  try_except
    (intent <- detect_intent q ;;
     if intent =? "sql" then
       sql <- generate_sql q ;;
       result <- query_db sql ;;
       click_echo ("Ответ: " ++ repr X result ++ LF)
     else if intent =? "smalltalk" then click_echo (INFORMAL_MSG ++ LF)
     else if intent =? "help" then click_echo (HELP_MSG ++ LF)
     else click_echo (UNKNOWN_INTENT_MSG ++ LF))
    (fun e => logging_exception "Ошибка в demo" ;;
              click_echo ("Ошибка: " ++ exn_text e ++ LF)).

Definition demo : Py unit := for_each questions demo_question.

End Program.

(** ** Ingestion: [init_db], [import_csv] and the command [init] *)

(** What pandas makes of the CSV file: [df.dtypes.items()], as pairs of a
    column name and [str(dtype)], and the rows of [df.iterrows()], each as
    [tuple(row)]. *)
Record DataFrame (Cell : Type) : Type := {
  dtypes : list (str * str);
  iterrows : list (list Cell)
}.

(** One thing asked of the CSV reader or of the connection, whether it
    succeeded or raised. *)
Inductive operation (Cell : Type) : Type :=
| ReadCsv (nrows : option nat)
| Connect
| Execute (stmt : str) (params : list Cell)
| Commit.

Arguments ReadCsv {Cell} nrows.
Arguments Connect {Cell}.
Arguments Execute {Cell} stmt params.
Arguments Commit {Cell}.

(** The collaborators of the ingestion: [pd.read_csv(csv_path, nrows=...)],
    and a connection of [aiosqlite] with [connect], [execute] and [commit],
    each of which may raise. *)
Record Ingestion : Type := {
  Cell : Type;
  read_csv : option nat -> exn + DataFrame Cell;
  Db : Type;
  connect : Db -> option exn;
  execute : Db -> str -> list Cell -> Db * option exn;
  commit : Db -> Db * option exn
}.

(** [re.search(r'id$', col, re.IGNORECASE)]: somewhere in [col] stands an
    [i] and a [d], of either case, right at the end of the string or right
    before a line feed that ends the string. *)
Definition is_i (c : ascii) : bool := Ascii.eqb c "i" || Ascii.eqb c "I".
Definition is_d (c : ascii) : bool := Ascii.eqb c "d" || Ascii.eqb c "D".

Definition id_at_end (s : str) : bool :=
  match s with
  | String a (String b EmptyString) => is_i a && is_d b
  | String a (String b (String c EmptyString)) =>
      is_i a && is_d b && Ascii.eqb c (ascii_of_nat 10)
  | _ => false
  end.

Fixpoint re_search_id_end (s : str) : bool :=
  id_at_end s
  || match s with
     | EmptyString => false
     | String _ r => re_search_id_end r
     end.

(** [d.get(key, default)] on a dict written as its items. *)
Fixpoint dict_get (d : list (str * str)) (key default : str) : str :=
  match d with
  | [] => default
  | (k, v) :: rest => if k =? key then v else dict_get rest key default
  end.

Definition MAX_ROWS_PREVIEW : nat := 100.

Definition _get_type_map : list (str * str) :=
  [("int64", "INTEGER"); ("float64", "REAL"); ("object", "TEXT");
   ("bool", "INTEGER")].

(** The loop of [init_db] over [df.dtypes.items()], with its flag [pk_set]. *)
Fixpoint init_db_columns (type_map : list (str * str)) (pk_set : bool)
    (items : list (str * str)) : list str :=
  match items with
  | [] => []
  | (col, dtype) :: rest =>
      let sql_type := dict_get type_map dtype "TEXT" in
      if negb pk_set && re_search_id_end col
      then (col ++ " " ++ sql_type ++ " PRIMARY KEY")
           :: init_db_columns type_map true rest
      else (col ++ " " ++ sql_type) :: init_db_columns type_map pk_set rest
  end.

Section Ingest.

Variable P : Ingestion.

(** The database file, and what was asked of the reader and of the
    connection so far, oldest first. *)
Record Disk : Type := { db : Db P; journal : list (operation (Cell P)) }.

Definition pd_read_csv (nrows : option nat) : M Disk (DataFrame (Cell P)) :=
  fun w =>
    Out [] {| db := db w; journal := journal w ++ [ReadCsv nrows] |}
        (read_csv P nrows).

(** [async with aiosqlite.connect(db_path) as conn] *)
Definition aiosqlite_connect : M Disk unit :=
  fun w =>
    Out [] {| db := db w; journal := journal w ++ [Connect] |}
        (match connect P (db w) with Some e => inl e | None => inr tt end).

(** [await conn.execute(stmt, params)] *)
Definition db_execute (stmt : str) (params : list (Cell P)) : M Disk unit :=
  fun w =>
    let (d, r) := execute P (db w) stmt params in
    Out [] {| db := d; journal := journal w ++ [Execute stmt params] |}
        (match r with Some e => inl e | None => inr tt end).

(** [await conn.commit()] *)
Definition db_commit : M Disk unit :=
  fun w =>
    let (d, r) := commit P (db w) in
    Out [] {| db := d; journal := journal w ++ [Commit] |}
        (match r with Some e => inl e | None => inr tt end).

Definition init_db : M Disk unit :=
  df <- try_except
          (pd_read_csv (Some MAX_ROWS_PREVIEW))
          (fun e => logging_exception "Ошибка чтения CSV для инициализации БД" ;;
                    raise e) ;;
  let type_map := _get_type_map in
  let columns := init_db_columns type_map false (dtypes df) in
  let columns_sql := join ("," ++ LF ++ "    ") columns in
  let create_sql :=
    "CREATE TABLE IF NOT EXISTS " ++ TABLE_NAME ++ " (" ++ LF ++ "    "
    ++ columns_sql ++ LF ++ ")" in
  try_except
    (aiosqlite_connect ;;
     db_execute create_sql [] ;;
     db_commit ;;
     logging_info ("База данных и таблица " ++ TABLE_NAME ++ " инициализированы."))
    (fun e => logging_exception "Ошибка создания таблицы в БД" ;; raise e).

Definition import_csv : M Disk unit :=
  df <- try_except
          (pd_read_csv None)
          (fun e => logging_exception "Ошибка чтения CSV для импорта" ;;
                    raise e) ;;
  try_except
    (aiosqlite_connect ;;
     db_execute ("DELETE FROM " ++ TABLE_NAME) [] ;;
     db_commit ;;
     for_each (iterrows df)
       (fun row =>
          db_execute ("INSERT INTO " ++ TABLE_NAME ++ " VALUES ("
                      ++ join ", " (repeat "?" (length row)) ++ ")")
                     row) ;;
     db_commit ;;
     logging_info ("Данные из CSV импортированы в таблицу " ++ TABLE_NAME ++ "."))
    (fun e => logging_exception "Ошибка импорта данных в БД" ;; raise e).

(** The command [init] of [cli.py]. *)
Definition init : M Disk unit :=
  try_except
    (init_db ;;
     import_csv ;;
     click_echo "База данных инициализирована и данные импортированы.")
    (fun e => logging_exception "Ошибка инициализации" ;;
              click_echo ("Ошибка: " ++ exn_text e)).

End Ingest.

(** ** Scripted collaborators

    A model that always gives the same three replies, and a store that is one
    flag: whether the table [freelancer_earnings] is still there. *)

Record Script : Type := {
  intent_reply : exn + parsed;
  sql_reply : exn + parsed;
  columns_reply : exn + list (str * str)
}.

Definition toy_execute (present : bool) (stmt : str)
  : bool * (exn + list str) :=
  if stmt =? "DROP TABLE freelancer_earnings" then
    (false,
     if present then inr []
     else inl (Exn DatabaseError "no such table: freelancer_earnings"))
  else if present then (present, inr ["1"])
  else (present, inl (Exn DatabaseError "no such table: freelancer_earnings")).

Definition scripted (s : Script) : Externals := {|
  Rows := list str;
  repr := fun rows => "[" ++ join ", " rows ++ "]";
  Gemini := unit;
  generate_content := fun g _ schema =>
    (g, match schema with
        | SchemaIntent => intent_reply s
        | SchemaSQL => sql_reply s
        end);
  Sqlite := bool;
  table_info := fun _ _ => columns_reply s;
  conn_execute := toy_execute
|}.

Definition two_columns : list (str * str) :=
  [("Freelancer_ID", "INTEGER"); ("Job_Category", "TEXT")].

(** The model answers [sql] and writes a statement that drops the table. *)
Definition drop_script : Script := {|
  intent_reply := inr (IntentResponse "sql");
  sql_reply := inr (SQLResponse "DROP TABLE freelancer_earnings");
  columns_reply := inr two_columns
|}.

(** The model answers [sql] and writes a statement with some padding. *)
Definition select_script : Script := {|
  intent_reply := inr (IntentResponse "sql");
  sql_reply := inr (SQLResponse "  SELECT Job_Category FROM freelancer_earnings  ");
  columns_reply := inr two_columns
|}.

(** The store cannot be opened when the schema is read. *)
Definition no_schema_script : Script := {|
  intent_reply := inr (IntentResponse "sql");
  sql_reply := inr (SQLResponse "SELECT 1");
  columns_reply := inl (Exn DatabaseError "unable to open database file")
|}.

(** The model call fails when the statement is asked for. *)
Definition model_down_script : Script := {|
  intent_reply := inr (IntentResponse "sql");
  sql_reply := inl (Exn PlainException "503 UNAVAILABLE");
  columns_reply := inr two_columns
|}.

(** The model names an intent that is not one of the four. *)
Definition greeting_script : Script := {|
  intent_reply := inr (IntentResponse " Greeting ");
  sql_reply := inr (SQLResponse "SELECT 1");
  columns_reply := inr two_columns
|}.

(** The world of a scripted run: the table is there. *)
Definition start (s : Script) : World (scripted s) :=
  Build_World (scripted s) tt true.

(** A store whose planner accepts every statement and whose execution
    fails: the table changed between the dry run and the query. *)
Definition drifting : Externals := {|
  Rows := list str;
  repr := fun rows => "[" ++ join ", " rows ++ "]";
  Gemini := unit;
  generate_content := fun g _ schema =>
    (g, match schema with
        | SchemaIntent => inr (IntentResponse "sql")
        | SchemaSQL => inr (SQLResponse "SELECT Rating FROM freelancer_earnings")
        end);
  Sqlite := unit;
  table_info := fun _ _ => inr two_columns;
  conn_execute := fun d stmt =>
    if startswith stmt "EXPLAIN " then (d, inr [])
    else (d, inl (Exn DatabaseError "no such column: Rating"))
|}.

(** ** Vocabulary of the properties *)

(** The four values of an intent. *)
Definition is_intent (s : str) : bool :=
  (s =? "sql") || (s =? "smalltalk") || (s =? "help") || (s =? "unknown").

(** A separator stands in the trimmed statement before its last character. *)
Definition separator_elsewhere (sql : str) : Prop :=
  exists i, S i < String.length (strip sql)
            /\ String.get i (strip sql) = Some ";"%char.

Definition is_store_call (ev : event) : bool :=
  match ev with StoreCall _ _ => true | _ => false end.

Definition is_model_call (ev : event) : bool :=
  match ev with ModelCall _ _ => true | _ => false end.

(** The records written to [llm_results.log]. *)
Definition audit_log (evs : list event) : list str :=
  flat_map (fun ev => match ev with Audit msg => [msg] | _ => [] end) evs.

(** The lines printed on the terminal. *)
Definition printed (evs : list event) : list str :=
  flat_map (fun ev => match ev with Echo line => [line] | _ => [] end) evs.

(** The statements run by [query_db]. *)
Definition executed (evs : list event) : list str :=
  flat_map (fun ev => match ev with StoreCall Query stmt => [stmt] | _ => [] end)
           evs.

(** The statements sent to the dry run of [validate_sql]. *)
Definition dry_runs (evs : list event) : list str :=
  flat_map (fun ev => match ev with StoreCall DryRun stmt => [stmt] | _ => [] end)
           evs.

(** The calls that leave the process: to the model or to the store. *)
Definition outside_calls (evs : list event) : list event :=
  filter (fun ev => is_store_call ev || is_model_call ev) evs.

(** The lines [answer] can print: a fixed message, the fetched rows, or the
    text of an exception. *)
Definition answer_line (X : Externals) (line : str) : Prop :=
  In line [EMPTY_QUESTION_MSG; INFORMAL_MSG; HELP_MSG; UNKNOWN_INTENT_MSG;
           INVALID_SQL_MSG]
  \/ (exists rows : Rows X, line = "Ответ: " ++ repr X rows)
  \/ (exists text : str, line = "Ошибка: " ++ text).

(** No line is printed and the store is not touched. *)
Definition quiet (ev : list event) : Prop :=
  printed ev = [] /\ executed ev = [] /\ dry_runs ev = [].

(** The line of a question that is not classified [sql]. *)
Definition canned (intent : str) : str :=
  if intent =? "smalltalk" then INFORMAL_MSG
  else if intent =? "help" then HELP_MSG
  else UNKNOWN_INTENT_MSG.

(** A computation that never asks the store for a dry run. *)
Definition no_dry_run {W A} (m : M W A) : Prop :=
  forall w, dry_runs (events (m w)) = [].

(** The round trips to the store, of any kind. *)
Definition store_calls (evs : list event) : list event :=
  filter is_store_call evs.

Definition is_echo (ev : event) : bool :=
  match ev with Echo _ => true | _ => false end.

(** Everything a run did apart from printing. *)
Definition unprinted (evs : list event) : list event :=
  filter (fun ev => negb (is_echo ev)) evs.

(** [l] is an initial part of [full]. *)
Definition prefix_of {A} (l full : list A) : Prop :=
  exists rest, (l ++ rest)%list = full.

(** The text [get_table_schema_str] makes of the columns it read. *)
Definition schema_description (table_name : str) (columns : list (str * str))
  : str :=
  "Таблица " ++ table_name ++ " содержит следующие поля:" ++ LF
  ++ join LF (map (fun col => "- " ++ fst col ++ ": " ++ snd col) columns).

(** The statement [get_table_schema_str] sends for the fixed table. *)
Definition schema_lookup : event :=
  StoreCall SchemaLookup "PRAGMA table_info(freelancer_earnings)".

(** A column name ends in [id], in any letter case, possibly before one
    final line feed. *)
Definition ends_in_id (col : str) : Prop :=
  exists p a b,
    is_i a = true /\ is_d b = true
    /\ (col = p ++ String a (String b "")
        \/ col = p ++ String a (String b LF)).

(** The declaration of a column that is not the primary key. *)
Definition plain_column (item : str * str) : str :=
  fst item ++ " " ++ dict_get _get_type_map (snd item) "TEXT".

(** The statement [init_db] builds for a data frame. *)
Definition create_statement {Cell} (df : DataFrame Cell) : str :=
  "CREATE TABLE IF NOT EXISTS " ++ TABLE_NAME ++ " (" ++ LF ++ "    "
  ++ join ("," ++ LF ++ "    ") (init_db_columns _get_type_map false (dtypes df))
  ++ LF ++ ")".

(** The statement [import_csv] builds for a row of [n] values. *)
Definition insert_statement (n : nat) : str :=
  "INSERT INTO " ++ TABLE_NAME ++ " VALUES (" ++ join ", " (repeat "?" n) ++ ")".

(** What a complete [import_csv] asks of the connection. *)
Definition import_plan {Cell} (df : DataFrame Cell) : list (operation Cell) :=
  Connect :: Execute ("DELETE FROM " ++ TABLE_NAME) [] :: Commit
  :: (map (fun row => Execute (insert_statement (length row)) row) (iterrows df)
      ++ [Commit])%list.

(** How often a character occurs in a string. *)
Fixpoint count_char (c : ascii) (s : str) : nat :=
  match s with
  | EmptyString => 0
  | String d r => (if Ascii.eqb d c then 1 else 0) + count_char c r
  end.

(** The statements among some operations. *)
Definition statements {Cell} (ops : list (operation Cell)) : list str :=
  flat_map (fun op => match op with Execute stmt _ => [stmt] | _ => [] end) ops.

(** A small CSV file, and an ingestion over it whose connection counts the
    statements it ran and refuses the one numbered [fail_at]. *)
Definition sample_frame : DataFrame str := {|
  dtypes := [("Job_Category", "object"); ("Freelancer_ID", "int64");
             ("Earnings_USD", "float64"); ("Client_id", "int64");
             ("Rehired", "bool"); ("Joined", "datetime64[ns]")];
  iterrows := [["Data Entry"; "4"; "5577.0"; "17"; "True"; "2023-01-05"];
               ["Digital Marketing"; "5"; "3599.0"; "3"; "False"; "2023-02-11"]]
|}.

Definition csv_job (file : exn + DataFrame str) (fail_at : nat) : Ingestion := {|
  Cell := str;
  read_csv := fun _ => file;
  Db := nat;
  connect := fun _ => None;
  execute := fun d _ _ =>
    (S d, if Nat.eqb d fail_at
          then Some (Exn DatabaseError "database is locked") else None);
  commit := fun d => (d, None)
|}.

(** An empty database file on which nothing was asked yet. *)
Definition fresh (P : Ingestion) (d : Db P) : Disk P :=
  {| db := d; journal := [] |}.

(** ** Proof steps *)

(** Brings the list of events of a finished run to one right-nested list. *)
Ltac flatten_events :=
  cbn; repeat (rewrite <- app_assoc; cbn); rewrite ?app_nil_r.

(** ** Strings *)

Lemma lower_char_separator (c : ascii) :
  Ascii.eqb (lower_char c) ";" = Ascii.eqb c ";".
Proof.
  destruct c as [[|] [|] [|] [|] [|] [|] [|] [|]]; reflexivity.
Qed.

Lemma char_in_lower (s : str) : char_in ";" (lower s) = char_in ";" s.
Proof.
  induction s as [|c r IH]; simpl; [reflexivity|].
  now rewrite IH, lower_char_separator.
Qed.

Lemma but_last_lower (s : str) : but_last (lower s) = lower (but_last s).
Proof.
  induction s as [|c r IH]; simpl; [reflexivity|].
  destruct r as [|d r']; [reflexivity|].
  simpl in *. now rewrite IH.
Qed.

Lemma char_in_but_last (c : ascii) (s : str) :
  char_in c (but_last s) = true
  <-> exists i, S i < String.length s /\ String.get i s = Some c.
Proof.
  induction s as [|d r IH].
  - simpl. split; [discriminate|]. intros [i [H _]]. inversion H.
  - destruct r as [|d' r'].
    + simpl. split; [discriminate|]. intros [i [H _]]. lia.
    + change (but_last (String d (String d' r')))
        with (String d (but_last (String d' r'))).
      cbn [char_in]. rewrite orb_true_iff, IH. split.
      * intros [H | [i [Hi Hg]]].
        -- exists 0. split; [simpl; lia|]. apply Ascii.eqb_eq in H. now subst.
        -- exists (S i). split; [simpl in *; lia | exact Hg].
      * intros [[|i] [Hi Hg]].
        -- left. simpl in Hg. inversion Hg. apply Ascii.eqb_refl.
        -- right. exists i. split; [simpl in *; lia | exact Hg].
Qed.

(** The test of the second rule of [validate_sql], read on the trimmed text. *)
Lemma separator_rule_spec (sql : str) :
  char_in ";" (but_last (lower (strip sql))) = true <-> separator_elsewhere sql.
Proof.
  rewrite but_last_lower, char_in_lower. apply char_in_but_last.
Qed.

Lemma rstrip_empty (s : str) : is_empty (rstrip s) = blank s.
Proof.
  induction s as [|c r IH]; simpl; [reflexivity|].
  destruct (rstrip r); simpl in IH; rewrite <- IH;
    destruct (isspace c); reflexivity.
Qed.

Lemma lstrip_blank (s : str) : blank (lstrip s) = blank s.
Proof.
  induction s as [|c r IH]; simpl; [reflexivity|].
  destruct (isspace c) eqn:E; simpl; [exact IH | now rewrite E].
Qed.

(** [not s.strip()] holds exactly of the blank strings. *)
Lemma strip_empty (s : str) : is_empty (strip s) = blank s.
Proof.
  unfold strip. now rewrite rstrip_empty, lstrip_blank.
Qed.

Lemma blank_not_select (s : str) :
  blank s = true -> startswith (lower (strip s)) "select" = false.
Proof.
  intro H. rewrite <- strip_empty in H.
  destruct (strip s); [reflexivity | discriminate].
Qed.

(** ** The validator *)

(** Acceptance by [validate_sql] means that the three rules held. *)
Lemma validate_sql_accepts (X : Externals) (sql : str) (w w' : World X) ev b :
  validate_sql sql w = Out ev w' (inr b) ->
  startswith (lower (strip sql)) "select" = true
  /\ ~ separator_elsewhere sql
  /\ exists rows, conn_execute X (sqlite w) ("EXPLAIN " ++ sql)
                  = (sqlite w', inr rows).
Proof.
  unfold validate_sql.
  destruct (startswith (lower (strip sql)) "select") eqn:Hsel;
    [|cbn; discriminate].
  destruct (char_in ";" (but_last (lower (strip sql)))) eqn:Hsep;
    [cbn; discriminate|].
  cbn [negb]. intro H. split; [reflexivity|]. split.
  - intro Hs. apply separator_rule_spec in Hs. congruence.
  - revert H. unfold try_except, bind, store_execute.
    destruct (conn_execute X (sqlite w) ("EXPLAIN " ++ sql)) as [d [e|rows]].
    + destruct (is_database_error e); discriminate.
    + simpl. intro H. inversion H. subst. simpl. now exists rows.
Qed.

(** The events of an accepting run: one dry run, on the statement as given. *)
Lemma validate_sql_accepted_events
    (X : Externals) (sql : str) (w w' : World X) ev b :
  validate_sql sql w = Out ev w' (inr b) ->
  dry_runs ev = ["EXPLAIN " ++ sql] /\ ev = [StoreCall DryRun ("EXPLAIN " ++ sql)].
Proof.
  unfold validate_sql.
  destruct (startswith (lower (strip sql)) "select"); [|cbn; discriminate].
  destruct (char_in ";" (but_last (lower (strip sql)))); [cbn; discriminate|].
  cbn [negb]. unfold try_except, bind, store_execute.
  destruct (conn_execute X (sqlite w) ("EXPLAIN " ++ sql)) as [d [e | rows]].
  - destruct (is_database_error e); discriminate.
  - cbn. intro H. inversion H. now split.
Qed.

(** The first rule of [validate_sql]. *)
Lemma validate_sql_keyword_rule (X : Externals) (sql : str) (w : World X) :
  startswith (lower (strip sql)) "select" = false ->
  validate_sql sql w
  = Out [Log ERROR ("Попытка выполнить опасный или неразрешённый SQL: " ++ sql)]
        w (inl (Exn ValueError "Разрешены только SELECT-запросы!")).
Proof. intro H. unfold validate_sql. rewrite H. reflexivity. Qed.

(** C5.  A statement whose trimmed, lower-cased text does not start with
    [select], and so every empty or blank statement, is refused by
    [validate_sql] with the [ValueError] of the first rule (the spec's
    UnsafeStatement); nothing but the log line happens. *)
Theorem validate_sql_rejects_non_select
    (X : Externals) (sql : str) (w : World X) :
  startswith (lower (strip sql)) "select" = false \/ blank sql = true ->
  validate_sql sql w
  = Out [Log ERROR ("Попытка выполнить опасный или неразрешённый SQL: " ++ sql)]
        w (inl (Exn ValueError "Разрешены только SELECT-запросы!")).
Proof.
  intros [H | H]; [| apply blank_not_select in H];
    exact (validate_sql_keyword_rule sql w H).
Qed.

Lemma validate_sql_rejects_non_select_witness :
  (startswith (lower (strip "  DROP TABLE freelancer_earnings")) "select" = false
   \/ blank "  DROP TABLE freelancer_earnings" = true)
  /\ returned (validate_sql "  DROP TABLE freelancer_earnings" (start drop_script))
     = inl (Exn ValueError "Разрешены только SELECT-запросы!").
Proof.
  split; [left; reflexivity|].
  rewrite (@validate_sql_rejects_non_select (scripted drop_script)
             "  DROP TABLE freelancer_earnings" (start drop_script));
    [reflexivity | left; reflexivity].
Defined.

(** What [validate_sql] does once both textual rules are passed: one dry run
    with the statement as it was given, whose failure is logged and raised
    again. *)
Lemma validate_sql_dry_run (X : Externals) (sql : str) (w : World X) :
  startswith (lower (strip sql)) "select" = true ->
  ~ separator_elsewhere sql ->
  validate_sql sql w
  = Out (StoreCall DryRun ("EXPLAIN " ++ sql)
         :: match snd (conn_execute X (sqlite w) ("EXPLAIN " ++ sql)) with
            | inl e =>
                [if is_database_error e
                 then Log ERROR ("Некорректный SQL: " ++ exn_text e)
                 else Log EXCEPTION "Ошибка при валидации SQL"]
            | inr _ => []
            end)
        {| gemini := gemini w;
           sqlite := fst (conn_execute X (sqlite w) ("EXPLAIN " ++ sql)) |}
        (match snd (conn_execute X (sqlite w) ("EXPLAIN " ++ sql)) with
         | inl e => inl e
         | inr _ => inr true
         end).
Proof.
  intros Hsel Hsep. unfold validate_sql. rewrite Hsel. cbn [negb].
  destruct (char_in ";" (but_last (lower (strip sql)))) eqn:E.
  { apply separator_rule_spec in E. contradiction. }
  unfold try_except, bind, store_execute.
  destruct (conn_execute X (sqlite w) ("EXPLAIN " ++ sql)) as [d [e | rows]];
    cbn [fst snd]; [destruct (is_database_error e)|]; reflexivity.
Qed.

(** C6.  A separator anywhere before the last character of the trimmed
    statement makes [validate_sql] raise a [ValueError].  A statement without
    such a separator, one trailing [;] or none, is not stopped by the
    separator rule: once it starts with [select] the validator goes on to the
    dry run, accepts when the store accepts and raises what the store
    raises. *)
Theorem validate_sql_separator_rule
    (X : Externals) (sql : str) (w : World X) :
  (separator_elsewhere sql ->
   exists msg text,
     validate_sql sql w = Out [Log ERROR msg] w (inl (Exn ValueError text)))
  /\ (~ separator_elsewhere sql ->
      startswith (lower (strip sql)) "select" = true ->
      dry_runs (events (validate_sql sql w)) = ["EXPLAIN " ++ sql]
      /\ returned (validate_sql sql w)
         = match snd (conn_execute X (sqlite w) ("EXPLAIN " ++ sql)) with
           | inl e => inl e
           | inr _ => inr true
           end).
Proof.
  split.
  - intro Hsep.
    destruct (startswith (lower (strip sql)) "select") eqn:Hsel.
    + apply separator_rule_spec in Hsep.
      unfold validate_sql. rewrite Hsel, Hsep. cbn. eauto.
    + rewrite validate_sql_keyword_rule by assumption. eauto.
  - intros Hsep Hsel. rewrite (validate_sql_dry_run w Hsel Hsep).
    split; [|reflexivity].
    destruct (snd (conn_execute X (sqlite w) ("EXPLAIN " ++ sql))) as [e | rows];
      cbn [events]; [destruct (is_database_error e)|]; reflexivity.
Qed.

Lemma separator_elsewhere_stacked :
  separator_elsewhere
    "SELECT * FROM freelancer_earnings; DROP TABLE freelancer_earnings".
Proof. apply separator_rule_spec. reflexivity. Defined.

Lemma separator_elsewhere_trailing :
  ~ separator_elsewhere "SELECT * FROM freelancer_earnings; ".
Proof. intro H. apply separator_rule_spec in H. discriminate H. Defined.

Lemma validate_sql_separator_rule_witness :
  (exists msg text,
     validate_sql "SELECT * FROM freelancer_earnings; DROP TABLE freelancer_earnings"
                  (start select_script)
     = Out [Log ERROR msg] (start select_script) (inl (Exn ValueError text)))
  /\ returned (validate_sql "SELECT * FROM freelancer_earnings; "
                            (start select_script))
     = inr true.
Proof.
  split.
  - exact (proj1 (validate_sql_separator_rule
                    "SELECT * FROM freelancer_earnings; DROP TABLE freelancer_earnings"
                    (start select_script))
                 separator_elsewhere_stacked).
  - exact (proj2 (proj2 (validate_sql_separator_rule
                           "SELECT * FROM freelancer_earnings; "
                           (start select_script))
                        separator_elsewhere_trailing eq_refl)).
Defined.

(** C7.  A statement that breaks the separator rule is refused on the text
    alone: [validate_sql] raises a [ValueError], the one of the separator rule
    whenever the statement starts with [select] and the one of the keyword
    rule otherwise, and it makes no round trip to the store, so no dry run:
    the only event is the log line and the world is as before. *)
Theorem validate_sql_separator_before_dry_run
    (X : Externals) (sql : str) (w : World X) :
  separator_elsewhere sql ->
  outside_calls (events (validate_sql sql w)) = []
  /\ dry_runs (events (validate_sql sql w)) = []
  /\ world (validate_sql sql w) = w
  /\ exists text,
       returned (validate_sql sql w) = inl (Exn ValueError text)
       /\ (startswith (lower (strip sql)) "select" = true ->
           text = "Разрешено только одно SQL-выражение!").
Proof.
  intro Hsep.
  destruct (startswith (lower (strip sql)) "select") eqn:Hsel.
  - apply separator_rule_spec in Hsep.
    unfold validate_sql. rewrite Hsel, Hsep. cbn. repeat split. eauto.
  - rewrite validate_sql_keyword_rule by assumption.
    cbn. repeat split. eexists. split; [reflexivity | discriminate].
Qed.

Lemma validate_sql_separator_before_dry_run_witness :
  separator_elsewhere
    "SELECT * FROM freelancer_earnings; DROP TABLE freelancer_earnings"
  /\ outside_calls
       (events (validate_sql
                  "SELECT * FROM freelancer_earnings; DROP TABLE freelancer_earnings"
                  (start select_script))) = []
  /\ returned (validate_sql
                 "SELECT * FROM freelancer_earnings; DROP TABLE freelancer_earnings"
                 (start select_script))
     = inl (Exn ValueError "Разрешено только одно SQL-выражение!").
Proof.
  split; [exact separator_elsewhere_stacked|].
  destruct (validate_sql_separator_before_dry_run
              (start select_script) separator_elsewhere_stacked)
    as [Hcalls [_ [_ [text [Hret Htext]]]]].
  split; [exact Hcalls|].
  rewrite Hret, (Htext eq_refl). reflexivity.
Defined.

(** ** The two model operations *)

(** [detect_intent] always returns: the trimmed and lower-cased reply of the
    model on its success path, [unknown] on any failure. *)
Lemma detect_intent_returns (X : Externals) (q : str) (w : World X) :
  exists ev g,
    quiet ev
    /\ detect_intent q w
       = Out ev {| gemini := g; sqlite := sqlite w |}
             (inr match snd (generate_content X (gemini w)
                               (INTENT_PROMPT_TEMPLATE q) SchemaIntent) with
                  | inr (IntentResponse raw) => lower (strip raw)
                  | _ => "unknown"
                  end).
Proof.
  unfold detect_intent, _generate_content_with_schema, try_except, bind,
    models_generate_content.
  destruct (generate_content X (gemini w) (INTENT_PROMPT_TEMPLATE q) SchemaIntent)
    as [g [e | [ | sql | raw]]]; cbn;
    eexists; exists g; (split; [|reflexivity]); repeat split.
Qed.

(** [generate_sql] when the schema cannot be read: the lookup is outside the
    [try] of the function, so its exception leaves the function. *)
Lemma generate_sql_schema_failure (X : Externals) (q : str) (w : World X) e :
  table_info X (sqlite w) TABLE_NAME = inl e ->
  generate_sql q w
  = Out [StoreCall SchemaLookup "PRAGMA table_info(freelancer_earnings)";
         Log EXCEPTION "Ошибка получения схемы таблицы"]
        w (inl e).
Proof.
  intro H.
  unfold generate_sql, get_table_schema_str, try_except, bind, store_table_info.
  rewrite H. reflexivity.
Qed.

(** [generate_sql] when the schema is read: one model call, whose reply
    decides both the statement returned and the audit record. *)
Lemma generate_sql_run (X : Externals) (q : str) (w : World X) columns :
  table_info X (sqlite w) TABLE_NAME = inr columns ->
  exists prompt ev g,
    let reply := snd (generate_content X (gemini w) prompt SchemaSQL) in
    generate_sql q w
    = Out ev {| gemini := g; sqlite := sqlite w |}
          (inr match reply with
               | inr (SQLResponse raw) => strip raw
               | _ => "SELECT 1"
               end)
    /\ quiet ev
    /\ outside_calls ev
       = [StoreCall SchemaLookup "PRAGMA table_info(freelancer_earnings)";
          ModelCall prompt SchemaSQL]
    /\ audit_log ev
       = match reply with
         | inr (SQLResponse raw) => ["Вопрос: " ++ q ++ LF ++ "SQL: " ++ strip raw]
         | _ => []
         end.
Proof.
  intro H.
  unfold generate_sql, get_table_schema_str, _generate_content_with_schema,
    try_except, bind, store_table_info, models_generate_content.
  rewrite H. cbn.
  match goal with
  | |- context [generate_content X (gemini w) ?p SchemaSQL] => exists p
  end.
  destruct (generate_content X (gemini w) _ SchemaSQL)
    as [g [e | [ | raw | intent]]]; cbn;
    eexists; exists g; (split; [reflexivity|]); repeat split.
Qed.

Lemma generate_sql_quiet (X : Externals) (q : str) (w w' : World X) ev r :
  generate_sql q w = Out ev w' r -> quiet ev /\ sqlite w' = sqlite w.
Proof.
  destruct (table_info X (sqlite w) TABLE_NAME) as [e | columns] eqn:H.
  - rewrite (generate_sql_schema_failure q w H). intro E. inversion E.
    repeat split.
  - destruct (generate_sql_run q w H) as [prompt [ev' [g [E [Hq _]]]]].
    cbv zeta in E. rewrite E. intro E'. inversion E'. subst. now split.
Qed.

(** ** The entry points on the [sql] branch *)

(** [ask] once the question is classified [sql] and a statement is generated:
    the statement is printed, then validated, and run only when the validator
    returned. *)
Lemma ask_sql_branch (X : Externals) (q : str) (w w1 w2 : World X) ev1 ev2 cand :
  blank q = false ->
  detect_intent q w = Out ev1 w1 (inr "sql") ->
  generate_sql q w1 = Out ev2 w2 (inr cand) ->
  ask q w
  = match validate_sql cand w2 with
    | Out ev3 w3 (inl _) =>
        Out (ev1 ++ ev2 ++ Echo ("SQL: " ++ cand) :: ev3 ++ [Echo INVALID_SQL_MSG])
            w3 (inr tt)
    | Out ev3 w3 (inr _) =>
        match query_db cand w3 with
        | Out ev4 w4 (inr rows) =>
            Out (ev1 ++ ev2 ++ Echo ("SQL: " ++ cand) :: ev3 ++ ev4
                 ++ [Echo ("Результат: " ++ repr X rows)])
                w4 (inr tt)
        | Out ev4 w4 (inl e) =>
            Out (ev1 ++ ev2 ++ Echo ("SQL: " ++ cand) :: ev3 ++ ev4
                 ++ [Log EXCEPTION "Ошибка при обработке вопроса";
                     Echo ("Ошибка: " ++ exn_text e)])
                w4 (inr tt)
        end
    end.
Proof.
  intros Hb Hd Hg. unfold ask. rewrite strip_empty, Hb.
  unfold try_except at 1. unfold bind at 1. rewrite Hd.
  cbn [String.eqb Ascii.eqb Bool.eqb].
  unfold bind at 1. rewrite Hg.
  unfold bind at 1. cbn [click_echo emit].
  unfold bind at 1. unfold validate_or_report, try_except, bind at 1.
  destruct (validate_sql cand w2) as [ev3 w3 [e | b]].
  - flatten_events. reflexivity.
  - cbn [ret]. unfold bind at 1.
    destruct (query_db cand w3) as [ev4 w4 [e | rows]];
      flatten_events; reflexivity.
Qed.

(** [answer] on the same branch: as [ask], without the line that shows the
    statement. *)
Lemma answer_sql_branch (X : Externals) (q : str) (w w1 w2 : World X) ev1 ev2 cand :
  blank q = false ->
  detect_intent q w = Out ev1 w1 (inr "sql") ->
  generate_sql q w1 = Out ev2 w2 (inr cand) ->
  answer q w
  = match validate_sql cand w2 with
    | Out ev3 w3 (inl _) =>
        Out (ev1 ++ ev2 ++ ev3 ++ [Echo INVALID_SQL_MSG]) w3 (inr tt)
    | Out ev3 w3 (inr _) =>
        match query_db cand w3 with
        | Out ev4 w4 (inr rows) =>
            Out (ev1 ++ ev2 ++ ev3 ++ ev4 ++ [Echo ("Ответ: " ++ repr X rows)])
                w4 (inr tt)
        | Out ev4 w4 (inl e) =>
            Out (ev1 ++ ev2 ++ ev3 ++ ev4
                 ++ [Log EXCEPTION "Ошибка при обработке вопроса";
                     Echo ("Ошибка: " ++ exn_text e)])
                w4 (inr tt)
        end
    end.
Proof.
  intros Hb Hd Hg. unfold answer. rewrite strip_empty, Hb.
  unfold try_except at 1. unfold bind at 1. rewrite Hd.
  cbn [String.eqb Ascii.eqb Bool.eqb].
  unfold bind at 1. rewrite Hg.
  unfold bind at 1. unfold validate_or_report, try_except, bind at 1.
  destruct (validate_sql cand w2) as [ev3 w3 [e | b]].
  - flatten_events. reflexivity.
  - cbn [ret]. unfold bind at 1.
    destruct (query_db cand w3) as [ev4 w4 [e | rows]];
      flatten_events; reflexivity.
Qed.

(** Both entry points when [generate_sql] raises: the outer handler reports
    the exception and nothing reaches the validator or the executor. *)
Lemma sql_branch_generation_raises (X : Externals) (q : str) (w w1 w2 : World X)
    ev1 ev2 e :
  blank q = false ->
  detect_intent q w = Out ev1 w1 (inr "sql") ->
  generate_sql q w1 = Out ev2 w2 (inl e) ->
  let reported :=
    Out (ev1 ++ ev2 ++ [Log EXCEPTION "Ошибка при обработке вопроса";
                        Echo ("Ошибка: " ++ exn_text e)]) w2 (inr tt) in
  ask q w = reported /\ answer q w = reported.
Proof.
  intros Hb Hd Hg.
  split; [unfold ask | unfold answer]; rewrite strip_empty, Hb;
    unfold try_except at 1; unfold bind at 1; rewrite Hd;
    cbn [String.eqb Ascii.eqb Bool.eqb];
    unfold bind at 1; rewrite Hg; flatten_events; reflexivity.
Qed.

Lemma other_branch (X : Externals) (q : str) (w w1 : World X) ev1 intent :
  blank q = false ->
  detect_intent q w = Out ev1 w1 (inr intent) ->
  (intent =? "sql") = false ->
  ask q w = Out (ev1 ++ [Echo (canned intent)]) w1 (inr tt)
  /\ answer q w = Out (ev1 ++ [Echo (canned intent)]) w1 (inr tt).
Proof.
  intros Hb Hd Hi. unfold ask, answer, canned. rewrite strip_empty, Hb.
  unfold try_except, bind. rewrite Hd, Hi.
  destruct (intent =? "smalltalk"); [|destruct (intent =? "help")];
    split; reflexivity.
Qed.

Lemma printed_app (a b : list event) : printed (a ++ b) = (printed a ++ printed b)%list.
Proof. apply flat_map_app. Qed.

Lemma executed_app (a b : list event) :
  executed (a ++ b) = (executed a ++ executed b)%list.
Proof. apply flat_map_app. Qed.

Lemma dry_runs_app (a b : list event) :
  dry_runs (a ++ b) = (dry_runs a ++ dry_runs b)%list.
Proof. apply flat_map_app. Qed.

Lemma validate_sql_events (X : Externals) (sql : str) (w : World X) :
  printed (events (validate_sql sql w)) = []
  /\ executed (events (validate_sql sql w)) = [].
Proof.
  unfold validate_sql.
  destruct (startswith (lower (strip sql)) "select"); [|now cbn].
  destruct (char_in ";" (but_last (lower (strip sql)))); [now cbn|].
  cbn [negb]. unfold try_except, bind, store_execute.
  destruct (conn_execute X (sqlite w) ("EXPLAIN " ++ sql)) as [d [e | rows]];
    [destruct (is_database_error e)|]; now cbn.
Qed.

Lemma query_db_events (X : Externals) (query : str) (w : World X) :
  printed (events (query_db query w)) = []
  /\ executed (events (query_db query w)) = [query]
  /\ dry_runs (events (query_db query w)) = [].
Proof.
  unfold query_db, try_except, bind, store_execute.
  destruct (conn_execute X (sqlite w) query) as [d [e | rows]];
    [destruct (is_database_error e)|]; now cbn.
Qed.

(** ** The entry points *)

(** C9.  A question that is empty or all whitespace gets the blank-input
    message from [ask] and from [answer] and nothing else happens: the only
    event is that line, so no model call and no store call is made, and the
    world is as before. *)
Theorem blank_question_short_circuits (X : Externals) (q : str) (w : World X) :
  blank q = true ->
  ask q w = Out [Echo EMPTY_QUESTION_MSG] w (inr tt)
  /\ answer q w = Out [Echo EMPTY_QUESTION_MSG] w (inr tt)
  /\ outside_calls (events (ask q w)) = []
  /\ outside_calls (events (answer q w)) = [].
Proof.
  intro Hb. unfold ask, answer. rewrite strip_empty, Hb.
  repeat split.
Qed.

Lemma blank_question_short_circuits_witness :
  blank ("  " ++ LF ++ " ") = true
  /\ ask ("  " ++ LF ++ " ") (start select_script)
     = Out [Echo EMPTY_QUESTION_MSG] (start select_script) (inr tt).
Proof.
  split; [reflexivity|].
  exact (proj1 (@blank_question_short_circuits
                  (scripted select_script) ("  " ++ LF ++ " ")
                  (start select_script) eq_refl)).
Defined.

(** C8.  On the [sql] branch of [ask] and of [answer], with [cand] the
    statement [generate_sql] returned: when [validate_sql] accepts [cand], the
    statement run by [query_db] is [cand] itself, the dry run was made on
    [cand] itself, and in no case is any other text run.  The trimmed and
    lower-cased copy stays inside [validate_sql]. *)
Theorem executed_text_is_candidate
    (X : Externals) (q : str) (w w1 w2 : World X) ev1 ev2 cand :
  blank q = false ->
  detect_intent q w = Out ev1 w1 (inr "sql") ->
  generate_sql q w1 = Out ev2 w2 (inr cand) ->
  (forall ev3 w3 b,
     validate_sql cand w2 = Out ev3 w3 (inr b) ->
     executed (events (ask q w)) = [cand]
     /\ executed (events (answer q w)) = [cand]
     /\ dry_runs ev3 = ["EXPLAIN " ++ cand])
  /\ (forall s,
        In s (executed (events (ask q w)))
        \/ In s (executed (events (answer q w))) -> s = cand).
Proof.
  intros Hb Hd Hg.
  destruct (detect_intent_returns q w) as [ev1' [g1 [[_ [He1 _]] Hd']]].
  rewrite Hd in Hd'. inversion Hd'. subst ev1'. clear Hd'.
  destruct (generate_sql_quiet _ _ Hg) as [[_ [He2 _]] _].
  rewrite (ask_sql_branch q w Hb Hd Hg), (answer_sql_branch q w Hb Hd Hg).
  destruct (validate_sql_events cand w2) as [_ He3].
  split.
  - intros ev3 w3 b Hv.
    destruct (validate_sql_accepted_events _ _ Hv) as [Hdry _].
    rewrite Hv in He3. rewrite Hv. cbn [events] in He3.
    destruct (query_db_events cand w3) as [_ [He4 _]].
    destruct (query_db cand w3) as [ev4 w4 [e | rows]]; cbn [events] in *;
      rewrite ?executed_app; cbn [executed flat_map];
      rewrite ?executed_app, He1, He2, He3, He4; repeat split; assumption.
  - intro s.
    destruct (validate_sql cand w2) as [ev3 w3 [e | b]]; cbn [events] in He3.
    + cbn [events]. rewrite !executed_app. cbn [executed flat_map].
      rewrite !executed_app, He1, He2, He3. cbn. tauto.
    + destruct (query_db_events cand w3) as [_ [He4 _]].
      destruct (query_db cand w3) as [ev4 w4 [e | rows]]; cbn [events] in *;
        rewrite !executed_app; cbn [executed flat_map];
        rewrite !executed_app, He1, He2, He3, He4; cbn; intuition.
Qed.

Lemma executed_text_is_candidate_witness :
  blank "Which job categories are there?" = false
  /\ returned (detect_intent "Which job categories are there?"
                             (start select_script)) = inr "sql"
  /\ executed (events (ask "Which job categories are there?"
                           (start select_script)))
     = ["SELECT Job_Category FROM freelancer_earnings"]
  /\ dry_runs (events (ask "Which job categories are there?"
                           (start select_script)))
     = ["EXPLAIN SELECT Job_Category FROM freelancer_earnings"].
Proof.
  split; [reflexivity|]. split; [reflexivity|].
  pose (q := "Which job categories are there?").
  pose (cand := "SELECT Job_Category FROM freelancer_earnings").
  pose (r1 := detect_intent q (start select_script)).
  pose (r2 := generate_sql q (world r1)).
  pose (r3 := validate_sql cand (world r2)).
  destruct (@executed_text_is_candidate (scripted select_script) q
              (start select_script) (world r1) (world r2)
              (events r1) (events r2) cand eq_refl eq_refl eq_refl)
    as [Hrun _].
  destruct (Hrun (events r3) (world r3) true eq_refl) as [Hask _].
  split; [exact Hask | reflexivity].
Defined.

(** Every line [answer] can print. *)
Lemma answer_lines (X : Externals) (q : str) (w : World X) (line : str) :
  In line (printed (events (answer q w))) -> answer_line X line.
Proof.
  destruct (blank q) eqn:Hb.
  { unfold answer. rewrite strip_empty, Hb. cbn. intros [<- | []].
    left. cbn. tauto. }
  destruct (detect_intent_returns q w) as [ev1 [g1 [[Hp1 _] Hd]]].
  remember (match snd (generate_content X (gemini w)
                         (INTENT_PROMPT_TEMPLATE q) SchemaIntent) with
            | inr (IntentResponse raw) => lower (strip raw)
            | _ => "unknown"
            end) as intent eqn:Hi. clear Hi.
  destruct (intent =? "sql") eqn:Hsql.
  - apply String.eqb_eq in Hsql. subst intent.
    destruct (generate_sql q {| gemini := g1; sqlite := sqlite w |})
      as [ev2 w2 [e | cand]] eqn:Hg;
      destruct (generate_sql_quiet _ _ Hg) as [[Hp2 _] _].
    + rewrite (proj2 (sql_branch_generation_raises q w Hb Hd Hg)).
      cbn [events]. rewrite !printed_app, Hp1, Hp2. cbn.
      intros [<- | []]. right. right. eexists. reflexivity.
    + rewrite (answer_sql_branch q w Hb Hd Hg).
      destruct (validate_sql_events cand w2) as [Hp3 _].
      destruct (validate_sql cand w2) as [ev3 w3 [e | b]]; cbn [events] in Hp3.
      * cbn [events]. rewrite !printed_app, Hp1, Hp2, Hp3. cbn.
        intros [<- | []]. left. cbn. tauto.
      * destruct (query_db_events cand w3) as [Hp4 _].
        destruct (query_db cand w3) as [ev4 w4 [e | rows]];
          cbn [events] in *; rewrite !printed_app, Hp1, Hp2, Hp3, Hp4; cbn;
          intros [<- | []]; right; [right | left]; eexists; reflexivity.
  - rewrite (proj2 (other_branch q w Hb Hd Hsql)).
    cbn [events]. rewrite printed_app, Hp1. cbn. intros [<- | []].
    left. unfold canned.
    destruct (intent =? "smalltalk"); [|destruct (intent =? "help")];
      cbn; tauto.
Qed.

Lemma answer_line_not_statement (X : Externals) (line : str) :
  answer_line X line -> startswith line "SQL: " = false.
Proof.
  intros [H | [[rows ->] | [text ->]]]; [|reflexivity|reflexivity].
  cbn in H. repeat (destruct H as [<- | H]; [reflexivity|]). destruct H.
Qed.

(** C10.  In [ask], once the question is classified [sql] and a statement
    [cand] is generated, the line [SQL: cand] is printed before the validator
    starts: nothing is printed and no dry run is made before it, the events of
    [validate_sql cand] come right after it, and it is on the terminal also
    when the validator raises.  [answer] prints, throughout, only fixed
    messages, the fetched rows or the text of an exception, never a line that
    shows the statement; on the same run it prints what [ask] prints without
    that line. *)
Theorem ask_shows_statement_answer_does_not (X : Externals) :
  (forall (q : str) (w w1 w2 : World X) ev1 ev2 cand,
     blank q = false ->
     detect_intent q w = Out ev1 w1 (inr "sql") ->
     generate_sql q w1 = Out ev2 w2 (inr cand) ->
     (exists rest,
        events (ask q w)
        = (ev1 ++ ev2 ++ Echo ("SQL: " ++ cand)%string
             :: events (validate_sql cand w2) ++ rest)%list)
     /\ printed (ev1 ++ ev2) = []
     /\ dry_runs (ev1 ++ ev2) = []
     /\ (forall ev3 w3 e,
           validate_sql cand w2 = Out ev3 w3 (inl e) ->
           printed (events (ask q w)) = ["SQL: " ++ cand; INVALID_SQL_MSG]
           /\ printed (events (answer q w)) = [INVALID_SQL_MSG])
     /\ (forall ev3 w3 b ev4 w4 rows,
           validate_sql cand w2 = Out ev3 w3 (inr b) ->
           query_db cand w3 = Out ev4 w4 (inr rows) ->
           printed (events (ask q w))
           = ["SQL: " ++ cand; "Результат: " ++ repr X rows]
           /\ printed (events (answer q w)) = ["Ответ: " ++ repr X rows]))
  /\ (forall (q : str) (w : World X) (line : str),
        In line (printed (events (answer q w))) ->
        answer_line X line /\ startswith line "SQL: " = false).
Proof.
  split.
  - intros q w w1 w2 ev1 ev2 cand Hb Hd Hg.
    destruct (detect_intent_returns q w) as [ev1' [g1 [[Hp1 [_ Hr1]] Hd']]].
    rewrite Hd in Hd'. inversion Hd'. subst ev1'. clear Hd'.
    destruct (generate_sql_quiet _ _ Hg) as [[Hp2 [_ Hr2]] _].
    rewrite (ask_sql_branch q w Hb Hd Hg), (answer_sql_branch q w Hb Hd Hg).
    destruct (validate_sql_events cand w2) as [Hp3 _].
    split; [|split; [|split; [|split]]].
    + destruct (validate_sql cand w2) as [ev3 w3 [e | b]].
      * eexists. reflexivity.
      * destruct (query_db cand w3) as [ev4 w4 [e | rows]];
          eexists; reflexivity.
    + now rewrite printed_app, Hp1, Hp2.
    + now rewrite dry_runs_app, Hr1, Hr2.
    + intros ev3 w3 e Hv. rewrite Hv in *. cbn [events] in *.
      rewrite !printed_app. cbn [printed flat_map].
      rewrite !printed_app, Hp1, Hp2, Hp3. split; reflexivity.
    + intros ev3 w3 b ev4 w4 rows Hv Hq. rewrite Hv in *. cbn [events] in *.
      destruct (query_db_events cand w3) as [Hp4 _].
      rewrite Hq in *. cbn [events] in *.
      rewrite !printed_app. cbn [printed flat_map].
      rewrite !printed_app, Hp1, Hp2, Hp3, Hp4. split; reflexivity.
  - intros q w line H. apply answer_lines in H.
    split; [exact H | exact (answer_line_not_statement H)].
Qed.

Lemma ask_shows_statement_answer_does_not_witness :
  blank "Drop it" = false
  /\ returned (validate_sql "DROP TABLE freelancer_earnings" (start drop_script))
     = inl (Exn ValueError "Разрешены только SELECT-запросы!")
  /\ printed (events (ask "Drop it" (start drop_script)))
     = ["SQL: DROP TABLE freelancer_earnings"; INVALID_SQL_MSG]
  /\ printed (events (answer "Drop it" (start drop_script)))
     = [INVALID_SQL_MSG].
Proof.
  split; [reflexivity|]. split; [reflexivity|].
  pose (q := "Drop it").
  pose (cand := "DROP TABLE freelancer_earnings").
  pose (r1 := detect_intent q (start drop_script)).
  pose (r2 := generate_sql q (world r1)).
  pose (r3 := validate_sql cand (world r2)).
  destruct (proj1 (ask_shows_statement_answer_does_not (scripted drop_script))
              q (start drop_script) (world r1) (world r2)
              (events r1) (events r2) cand eq_refl eq_refl eq_refl)
    as [_ [_ [_ [Hraise _]]]].
  exact (Hraise (events r3) (world r3)
                (Exn ValueError "Разрешены только SELECT-запросы!") eq_refl).
Defined.

(** What [ask] and [answer] hand to [query_db] was accepted by
    [validate_sql] just before. *)
Lemma entry_points_run_only_accepted (X : Externals) (q : str) (w : World X) s :
  In s (executed (events (ask q w))) \/ In s (executed (events (answer q w))) ->
  exists (w2 w3 : World X) ev3 b, validate_sql s w2 = Out ev3 w3 (inr b).
Proof.
  destruct (blank q) eqn:Hb.
  { unfold ask, answer. rewrite strip_empty, Hb. cbn. tauto. }
  destruct (detect_intent_returns q w) as [ev1 [g1 [[_ [He1 _]] Hd]]].
  remember (match snd (generate_content X (gemini w)
                         (INTENT_PROMPT_TEMPLATE q) SchemaIntent) with
            | inr (IntentResponse raw) => lower (strip raw)
            | _ => "unknown"
            end) as intent eqn:Hi. clear Hi.
  destruct (intent =? "sql") eqn:Hsql.
  - apply String.eqb_eq in Hsql. subst intent.
    destruct (generate_sql q {| gemini := g1; sqlite := sqlite w |})
      as [ev2 w2 [e | cand]] eqn:Hg;
      destruct (generate_sql_quiet _ _ Hg) as [[_ [He2 _]] _].
    + destruct (sql_branch_generation_raises q w Hb Hd Hg) as [-> ->].
      cbn [events]. rewrite !executed_app, He1, He2. cbn. tauto.
    + rewrite (ask_sql_branch q w Hb Hd Hg), (answer_sql_branch q w Hb Hd Hg).
      destruct (validate_sql_events cand w2) as [_ He3].
      destruct (validate_sql cand w2) as [ev3 w3 [e | b]] eqn:Hv;
        cbn [events] in He3.
      * cbn [events]. rewrite !executed_app. cbn [executed flat_map].
        rewrite !executed_app, He1, He2, He3. cbn. tauto.
      * destruct (query_db_events cand w3) as [_ [He4 _]].
        assert (s = cand -> exists (w2 w3 : World X) ev3 b,
                              validate_sql s w2 = Out ev3 w3 (inr b))
          by (intros ->; eauto).
        destruct (query_db cand w3) as [ev4 w4 [e | rows]]; cbn [events] in *;
          rewrite !executed_app; cbn [executed flat_map];
          rewrite !executed_app, He1, He2, He3, He4; cbn; intuition.
  - destruct (other_branch q w Hb Hd Hsql) as [-> ->].
    cbn [events]. rewrite executed_app, He1. cbn. tauto.
Qed.

(** So every statement [ask] or [answer] runs starts with [select], has no
    separator before its last character, and went through a dry run the store
    accepted. *)
Lemma entry_points_respect_the_rules (X : Externals) (q : str) (w : World X) s :
  In s (executed (events (ask q w))) \/ In s (executed (events (answer q w))) ->
  startswith (lower (strip s)) "select" = true
  /\ ~ separator_elsewhere s
  /\ exists (w2 w3 : World X) rows,
       conn_execute X (sqlite w2) ("EXPLAIN " ++ s) = (sqlite w3, inr rows).
Proof.
  intro H.
  destruct (entry_points_run_only_accepted q w s H) as [w2 [w3 [ev3 [b Hv]]]].
  destruct (validate_sql_accepts _ _ Hv) as [Hsel [Hsep [rows Hrows]]].
  split; [exact Hsel|]. split; [exact Hsep|]. now exists w2, w3, rows.
Qed.

Lemma no_dry_run_bind {W A B} (m : M W A) (k : A -> M W B) :
  no_dry_run m -> (forall a, no_dry_run (k a)) -> no_dry_run (bind m k).
Proof.
  intros Hm Hk w. unfold bind. specialize (Hm w).
  destruct (m w) as [ev w1 [e | a]]; [exact Hm|].
  specialize (Hk a w1). destruct (k a w1) as [ev2 w2 r]. cbn [events] in *.
  now rewrite dry_runs_app, Hm, Hk.
Qed.

Lemma no_dry_run_try {W A} (m : M W A) (h : exn -> M W A) :
  no_dry_run m -> (forall e, no_dry_run (h e)) -> no_dry_run (try_except m h).
Proof.
  intros Hm Hh w. unfold try_except. specialize (Hm w).
  destruct (m w) as [ev w1 [e | a]]; [|exact Hm].
  specialize (Hh e w1). destruct (h e w1) as [ev2 w2 r]. cbn [events] in *.
  now rewrite dry_runs_app, Hm, Hh.
Qed.

Lemma no_dry_run_for_each {W A} (xs : list A) (body : A -> M W unit) :
  (forall x, no_dry_run (body x)) -> no_dry_run (for_each xs body).
Proof.
  intro Hb. induction xs as [|x xs IH]; cbn [for_each].
  - intro w. reflexivity.
  - apply no_dry_run_bind; [apply Hb | intros _; exact IH].
Qed.

Lemma no_dry_run_echo {W} (line : str) : no_dry_run (@click_echo W line).
Proof. intro w. reflexivity. Qed.

Lemma no_dry_run_exception {W} (msg : str) :
  no_dry_run (@logging_exception W msg).
Proof. intro w. reflexivity. Qed.

Lemma no_dry_run_detect_intent (X : Externals) (q : str) :
  no_dry_run (@detect_intent X q).
Proof.
  intro w. destruct (detect_intent_returns q w) as [ev [g [[_ [_ H]] ->]]].
  exact H.
Qed.

Lemma no_dry_run_generate_sql (X : Externals) (q : str) :
  no_dry_run (@generate_sql X q).
Proof.
  intro w. destruct (generate_sql q w) as [ev w' r] eqn:E.
  now destruct (generate_sql_quiet _ _ E) as [[_ [_ H]] _].
Qed.

Lemma no_dry_run_query_db (X : Externals) (query : str) :
  no_dry_run (@query_db X query).
Proof. intro w. now destruct (query_db_events query w) as [_ [_ H]]. Qed.

(** [demo] never calls the validator's dry run, whatever the model and the
    store do: [validate_sql] is not on its path. *)
Lemma demo_never_validates (X : Externals) : no_dry_run (@demo X).
Proof.
  apply no_dry_run_for_each. intro q. unfold demo_question.
  apply no_dry_run_bind; [apply no_dry_run_echo | intros _].
  apply no_dry_run_try.
  - apply no_dry_run_bind; [apply no_dry_run_detect_intent | intro intent].
    destruct (intent =? "sql").
    + apply no_dry_run_bind; [apply no_dry_run_generate_sql | intro sql].
      apply no_dry_run_bind; [apply no_dry_run_query_db | intro rows].
      apply no_dry_run_echo.
    + destruct (intent =? "smalltalk"); [|destruct (intent =? "help")];
        apply no_dry_run_echo.
  - intro e.
    apply no_dry_run_bind; [apply no_dry_run_exception | intros _].
    apply no_dry_run_echo.
Qed.

(** C1.  The invariant holds of [ask] and [answer] and fails in [demo]: with a
    model that classifies every question [sql] and writes
    [DROP TABLE freelancer_earnings], [demo] hands that statement to
    [query_db] with no dry run before it, and the table is gone afterwards,
    although [validate_sql] refuses the statement and [ask], on the same
    world, runs nothing. *)
Theorem demo_runs_unvalidated_statement :
  In "DROP TABLE freelancer_earnings"
     (executed (events (demo (start drop_script))))
  /\ dry_runs (events (demo (start drop_script))) = []
  /\ sqlite (world (demo (start drop_script))) = false
  /\ returned (validate_sql "DROP TABLE freelancer_earnings" (start drop_script))
     = inl (Exn ValueError "Разрешены только SELECT-запросы!")
  /\ executed (events (ask "How many freelancers were rehired?"
                           (start drop_script))) = []
  /\ sqlite (world (ask "How many freelancers were rehired?"
                        (start drop_script))) = true.
Proof.
  split; [vm_compute; left; reflexivity|].
  repeat split; vm_compute; reflexivity.
Qed.

(** ** The generator and the classifier *)

(** C2, as stated, fails: when the schema cannot be read, [generate_sql]
    raises to its caller instead of returning a statement. *)
Lemma generate_sql_raises_when_schema_fails :
  generate_sql "Сколько фрилансеров были повторно наняты?"
               (start no_schema_script)
  = Out [StoreCall SchemaLookup "PRAGMA table_info(freelancer_earnings)";
         Log EXCEPTION "Ошибка получения схемы таблицы"]
        (start no_schema_script)
        (inl (Exn DatabaseError "unable to open database file")).
Proof. reflexivity. Qed.

(** C2, amended.  Once the schema is read, [generate_sql] does not raise: it
    makes one model call and returns the trimmed statement of the reply, or
    [SELECT 1] when the call raised or the reply carries no statement.  When
    the schema cannot be read, that exception is raised to the caller. *)
Theorem generate_sql_returns_once_schema_read
    (X : Externals) (q : str) (w : World X) :
  (forall columns,
     table_info X (sqlite w) TABLE_NAME = inr columns ->
     exists prompt ev w',
       In (ModelCall prompt SchemaSQL) ev
       /\ generate_sql q w
          = Out ev w'
                (inr match snd (generate_content X (gemini w) prompt SchemaSQL) with
                     | inr (SQLResponse raw) => strip raw
                     | _ => "SELECT 1"
                     end))
  /\ (forall e,
        table_info X (sqlite w) TABLE_NAME = inl e ->
        returned (generate_sql q w) = inl e).
Proof.
  split.
  - intros columns H.
    destruct (generate_sql_run q w H) as [prompt [ev [g [E [_ [Hc _]]]]]].
    exists prompt, ev. eexists. split; [|exact E].
    assert (Hin : In (ModelCall prompt SchemaSQL) (outside_calls ev))
      by (rewrite Hc; right; left; reflexivity).
    apply filter_In in Hin. tauto.
  - intros e H. now rewrite (generate_sql_schema_failure q w H).
Qed.

Lemma generate_sql_returns_once_schema_read_witness :
  table_info (scripted model_down_script)
             (sqlite (start model_down_script)) TABLE_NAME = inr two_columns
  /\ returned (generate_sql "Сколько фрилансеров были повторно наняты?"
                            (start model_down_script))
     = inr "SELECT 1".
Proof.
  split; [reflexivity|].
  destruct (proj1 (generate_sql_returns_once_schema_read
                     "Сколько фрилансеров были повторно наняты?"
                     (start model_down_script))
                  two_columns eq_refl)
    as [prompt [ev [w' [_ E]]]].
  rewrite E. reflexivity.
Defined.

(** C3, as stated, fails: on the fallback path [generate_sql] returns
    [SELECT 1] and writes nothing to [llm_results.log]. *)
Lemma generate_sql_fallback_leaves_no_record :
  returned (generate_sql "Сколько фрилансеров были повторно наняты?"
                         (start model_down_script))
  = inr "SELECT 1"
  /\ audit_log (events (generate_sql "Сколько фрилансеров были повторно наняты?"
                                     (start model_down_script)))
     = [].
Proof. split; reflexivity. Qed.

(** C3, amended.  A call of [generate_sql] that returns the statement of the
    model writes one record to [llm_results.log], made of the question and of
    the statement returned; a call that returns the fallback [SELECT 1],
    because the model call raised or the reply carries no statement, writes
    no record. *)
Theorem generate_sql_audit_record
    (X : Externals) (q : str) (w w' : World X) ev sql :
  generate_sql q w = Out ev w' (inr sql) ->
  exists prompt,
    In (ModelCall prompt SchemaSQL) ev
    /\ match snd (generate_content X (gemini w) prompt SchemaSQL) with
       | inr (SQLResponse raw) =>
           sql = strip raw
           /\ audit_log ev = ["Вопрос: " ++ q ++ LF ++ "SQL: " ++ sql]
       | _ => sql = "SELECT 1" /\ audit_log ev = []
       end.
Proof.
  intro E.
  destruct (table_info X (sqlite w) TABLE_NAME) as [e | columns] eqn:H.
  { rewrite (generate_sql_schema_failure q w H) in E. discriminate E. }
  destruct (generate_sql_run q w H) as [prompt [ev' [g [E' [_ [Hc Ha]]]]]].
  cbv zeta in *. rewrite E in E'. inversion E' as [[Hev Hw Hsql]].
  subst ev'. exists prompt. split.
  - assert (Hin : In (ModelCall prompt SchemaSQL) (outside_calls ev))
      by (rewrite Hc; right; left; reflexivity).
    apply filter_In in Hin. tauto.
  - destruct (snd (generate_content X (gemini w) prompt SchemaSQL))
      as [e | [ | raw | intent]]; split; auto.
Qed.

Lemma generate_sql_audit_record_witness :
  returned (generate_sql "Which job categories are there?" (start select_script))
  = inr "SELECT Job_Category FROM freelancer_earnings"
  /\ audit_log (events (generate_sql "Which job categories are there?"
                                     (start select_script)))
     = ["Вопрос: Which job categories are there?" ++ LF
        ++ "SQL: SELECT Job_Category FROM freelancer_earnings"].
Proof.
  split; [reflexivity|].
  pose (r := generate_sql "Which job categories are there?" (start select_script)).
  destruct (@generate_sql_audit_record (scripted select_script)
              "Which job categories are there?" (start select_script)
              (world r) (events r)
              "SELECT Job_Category FROM freelancer_earnings" eq_refl)
    as [prompt [_ [_ Ha]]].
  exact Ha.
Defined.

(** C4.  [detect_intent] never raises, but what it returns is the trimmed and
    lower-cased text of the model, whatever it is: for the reply [ Greeting ]
    it returns [greeting], which is none of [sql], [smalltalk], [help],
    [unknown].  Only the last branch of the caller turns it into the
    unknown-intent message. *)
Theorem detect_intent_returns_unlisted_value :
  returned (detect_intent "Hello, how are you?" (start greeting_script))
  = inr "greeting"
  /\ is_intent "greeting" = false
  /\ printed (events (ask "Hello, how are you?" (start greeting_script)))
     = [UNKNOWN_INTENT_MSG].
Proof. repeat split. Qed.

(** * Further properties of the code *)

(** ** Trimming and lower-casing *)

Lemma isspace_lower_char (c : ascii) : isspace (lower_char c) = isspace c.
Proof. destruct c as [[|] [|] [|] [|] [|] [|] [|] [|]]; reflexivity. Qed.

Lemma lower_char_idempotent (c : ascii) :
  lower_char (lower_char c) = lower_char c.
Proof. destruct c as [[|] [|] [|] [|] [|] [|] [|] [|]]; reflexivity. Qed.

Lemma lower_idempotent (s : str) : lower (lower s) = lower s.
Proof.
  induction s as [|c r IH]; simpl; [reflexivity|].
  now rewrite IH, lower_char_idempotent.
Qed.

Lemma lstrip_lower (s : str) : lstrip (lower s) = lower (lstrip s).
Proof.
  induction s as [|c r IH]; simpl; [reflexivity|].
  rewrite isspace_lower_char. destruct (isspace c); [exact IH | reflexivity].
Qed.

Lemma rstrip_lower (s : str) : rstrip (lower s) = lower (rstrip s).
Proof.
  induction s as [|c r IH]; simpl; [reflexivity|].
  rewrite IH, isspace_lower_char.
  destruct (rstrip r); simpl; [destruct (isspace c)|]; reflexivity.
Qed.

Lemma strip_lower (s : str) : strip (lower s) = lower (strip s).
Proof. unfold strip. now rewrite lstrip_lower, rstrip_lower. Qed.

(** What is left of a string by [lstrip] is empty or starts with a character
    that is not whitespace. *)
Lemma lstrip_head (s : str) :
  lstrip s = "" \/ exists c r, lstrip s = String c r /\ isspace c = false.
Proof.
  induction s as [|c r IH]; simpl; [now left|].
  destruct (isspace c) eqn:E; [exact IH|]. right. now exists c, r.
Qed.

Lemma rstrip_idempotent (s : str) : rstrip (rstrip s) = rstrip s.
Proof.
  induction s as [|c r IH]; simpl; [reflexivity|].
  destruct (rstrip r) as [|d r'] eqn:E.
  - destruct (isspace c) eqn:Ec; simpl; [reflexivity | now rewrite Ec].
  - change (rstrip (String c (String d r'))) with
      (match rstrip (String d r') with
       | "" => if isspace c then "" else String c ""
       | x => String c x
       end).
    now rewrite IH.
Qed.

Lemma lstrip_rstrip_lstrip (s : str) :
  lstrip (rstrip (lstrip s)) = rstrip (lstrip s).
Proof.
  destruct (lstrip_head s) as [-> | [c [r [-> Hc]]]]; [reflexivity|].
  cbn [rstrip]. destruct (rstrip r); rewrite ?Hc; cbn [lstrip];
    now rewrite Hc.
Qed.

(** [s.strip().strip()] is [s.strip()]. *)
Lemma strip_idempotent (s : str) : strip (strip s) = strip s.
Proof.
  unfold strip. now rewrite lstrip_rstrip_lstrip, rstrip_idempotent.
Qed.

(** ** The classifier, the generator, the validator and the executor *)

(** One run of [detect_intent], in full. *)
Lemma detect_intent_run (X : Externals) (q : str) (w : World X) :
  exists ev g,
    let reply :=
      snd (generate_content X (gemini w) (INTENT_PROMPT_TEMPLATE q) SchemaIntent) in
    detect_intent q w
    = Out ev {| gemini := g; sqlite := sqlite w |}
          (inr match reply with
               | inr (IntentResponse raw) => lower (strip raw)
               | _ => "unknown"
               end)
    /\ outside_calls ev = [ModelCall (INTENT_PROMPT_TEMPLATE q) SchemaIntent]
    /\ printed ev = []
    /\ audit_log ev
       = match reply with
         | inr (IntentResponse raw) =>
             ["Вопрос: " ++ q ++ LF ++ "Интент: " ++ lower (strip raw)]
         | _ => []
         end.
Proof.
  unfold detect_intent, _generate_content_with_schema, try_except, bind,
    models_generate_content.
  destruct (generate_content X (gemini w) (INTENT_PROMPT_TEMPLATE q) SchemaIntent)
    as [g [e | [ | sql | raw]]]; cbn;
    eexists; exists g; repeat split.
Qed.

(** X1.  [detect_intent] never raises and costs exactly one model call, made
    with the intent prompt of the question, and no round trip to the store.
    The intent it returns is always in normal form: trimming it or
    lower-casing it again changes nothing, so the comparisons of the callers
    with [sql], [smalltalk] and [help] do not depend on the letter case or on
    the padding of the reply of the model. *)
Theorem detect_intent_normal_form (X : Externals) (q : str) (w : World X) :
  exists intent,
    returned (detect_intent q w) = inr intent
    /\ strip intent = intent
    /\ lower intent = intent
    /\ outside_calls (events (detect_intent q w))
       = [ModelCall (INTENT_PROMPT_TEMPLATE q) SchemaIntent]
    /\ sqlite (world (detect_intent q w)) = sqlite w.
Proof.
  destruct (detect_intent_run q w) as [ev [g [E [Hc _]]]]. cbv zeta in E.
  rewrite E. cbn [returned events world sqlite]. eexists.
  split; [reflexivity|].
  destruct (snd (generate_content X (gemini w) (INTENT_PROMPT_TEMPLATE q)
                   SchemaIntent)) as [e | [ | sql | raw]];
    repeat split; try exact Hc.
  - now rewrite strip_lower, strip_idempotent.
  - apply lower_idempotent.
Qed.

(** X2.  [detect_intent] writes one record to [llm_results.log], made of the
    question and of the intent it returns, exactly when the model call gave
    an intent; when the call raised or the reply carries no intent it returns
    [unknown] and writes no record. *)
Theorem detect_intent_audit_record (X : Externals) (q : str) (w : World X) :
  match snd (generate_content X (gemini w) (INTENT_PROMPT_TEMPLATE q)
               SchemaIntent) with
  | inr (IntentResponse raw) =>
      returned (detect_intent q w) = inr (lower (strip raw))
      /\ audit_log (events (detect_intent q w))
         = ["Вопрос: " ++ q ++ LF ++ "Интент: " ++ lower (strip raw)]
  | _ =>
      returned (detect_intent q w) = inr "unknown"
      /\ audit_log (events (detect_intent q w)) = []
  end.
Proof.
  destruct (detect_intent_run q w) as [ev [g [E [_ [_ Ha]]]]]. cbv zeta in *.
  rewrite E. cbn [returned events].
  destruct (snd (generate_content X (gemini w) (INTENT_PROMPT_TEMPLATE q)
                   SchemaIntent)) as [e | [ | sql | raw]]; now split.
Qed.

(** X3.  [query_db] is transparent: it makes one round trip with the statement
    exactly as given, returns the rows the store gave, raises again, as it
    is, whatever the store raised, and prints nothing. *)
Theorem query_db_transparent (X : Externals) (query : str) (w : World X) :
  returned (query_db query w) = snd (conn_execute X (sqlite w) query)
  /\ sqlite (world (query_db query w)) = fst (conn_execute X (sqlite w) query)
  /\ gemini (world (query_db query w)) = gemini w
  /\ outside_calls (events (query_db query w)) = [StoreCall Query query]
  /\ printed (events (query_db query w)) = [].
Proof.
  unfold query_db, try_except, bind, store_execute.
  destruct (conn_execute X (sqlite w) query) as [d [e | rows]];
    [destruct (is_database_error e)|]; cbn; repeat split.
Qed.

(** X4.  [validate_sql] has two outcomes only: it returns [True] or it raises;
    [False] is never returned.  It prints nothing, does not call the model,
    and its only possible round trip to the store is the dry run of
    [EXPLAIN] followed by the statement as given. *)
Theorem validate_sql_true_or_raises (X : Externals) (sql : str) (w : World X) :
  returned (validate_sql sql w) <> inr false
  /\ (outside_calls (events (validate_sql sql w)) = []
      \/ outside_calls (events (validate_sql sql w))
         = [StoreCall DryRun ("EXPLAIN " ++ sql)])
  /\ printed (events (validate_sql sql w)) = []
  /\ gemini (world (validate_sql sql w)) = gemini w.
Proof.
  unfold validate_sql.
  destruct (startswith (lower (strip sql)) "select").
  2:{ cbn. repeat split; [discriminate | now left]. }
  destruct (char_in ";" (but_last (lower (strip sql)))).
  { cbn. repeat split; [discriminate | now left]. }
  cbn [negb]. unfold try_except, bind, store_execute.
  destruct (conn_execute X (sqlite w) ("EXPLAIN " ++ sql)) as [d [e | rows]];
    [destruct (is_database_error e)|]; cbn; repeat split;
    try discriminate; try (now right); congruence.
Qed.

(** One run of [generate_sql] once the columns are read, with the prompt
    spelled out. *)
Lemma generate_sql_calls (X : Externals) (q : str) (w : World X) columns :
  table_info X (sqlite w) TABLE_NAME = inr columns ->
  let prompt := PROMPT_TEMPLATE (schema_description TABLE_NAME columns) q in
  outside_calls (events (generate_sql q w))
  = [schema_lookup; ModelCall prompt SchemaSQL]
  /\ returned (generate_sql q w)
     = inr match snd (generate_content X (gemini w) prompt SchemaSQL) with
           | inr (SQLResponse raw) => strip raw
           | _ => "SELECT 1"
           end
  /\ sqlite (world (generate_sql q w)) = sqlite w.
Proof.
  intros H prompt.
  unfold generate_sql, get_table_schema_str, _generate_content_with_schema,
    try_except, bind, store_table_info, models_generate_content.
  rewrite H. cbn [ret].
  change (PROMPT_TEMPLATE _ q) with prompt.
  destruct (generate_content X (gemini w) prompt SchemaSQL)
    as [g [e | [ | raw | intent]]]; cbn; repeat split.
Qed.

(** X5.  Every statement [generate_sql] returns is trimmed: trimming it again
    changes nothing.  A run that returns has read the columns of
    [freelancer_earnings] and then called the model once, with the template
    filled with the description of those columns and the question as given;
    the store is left as it was. *)
Theorem generate_sql_returns_trimmed
    (X : Externals) (q : str) (w w' : World X) ev sql :
  generate_sql q w = Out ev w' (inr sql) ->
  strip sql = sql
  /\ sqlite w' = sqlite w
  /\ exists columns,
       table_info X (sqlite w) TABLE_NAME = inr columns
       /\ outside_calls ev
          = [schema_lookup;
             ModelCall (PROMPT_TEMPLATE (schema_description TABLE_NAME columns) q)
                       SchemaSQL].
Proof.
  intro E.
  destruct (table_info X (sqlite w) TABLE_NAME) as [e | columns] eqn:H.
  { rewrite (generate_sql_schema_failure q w H) in E. discriminate E. }
  destruct (generate_sql_calls q w H) as [Hc [Hr Hs]]. cbv zeta in *.
  rewrite E in Hc, Hr, Hs. cbn [events returned world] in *.
  split; [|split; [exact Hs | now exists columns]].
  inversion Hr as [Hsql].
  destruct (snd (generate_content X (gemini w) _ SchemaSQL))
    as [e | [ | raw | intent]]; try reflexivity.
  apply strip_idempotent.
Qed.

Lemma generate_sql_returns_trimmed_witness :
  returned (generate_sql "Which job categories are there?" (start select_script))
  = inr "SELECT Job_Category FROM freelancer_earnings"
  /\ strip "SELECT Job_Category FROM freelancer_earnings"
     = "SELECT Job_Category FROM freelancer_earnings".
Proof.
  split; [reflexivity|].
  pose (r := generate_sql "Which job categories are there?" (start select_script)).
  exact (proj1 (@generate_sql_returns_trimmed (scripted select_script)
                  "Which job categories are there?" (start select_script)
                  (world r) (events r)
                  "SELECT Job_Category FROM freelancer_earnings" eq_refl)).
Defined.

(** ** The commands [ask] and [answer], on every path *)

Lemma store_calls_of_outside (ev : list event) :
  store_calls (outside_calls ev) = store_calls ev.
Proof.
  induction ev as [|x ev IH]; [reflexivity|].
  unfold store_calls, outside_calls in *.
  destruct x; cbn [filter is_store_call is_model_call orb]; now rewrite ?IH.
Qed.

Lemma store_calls_app (a b : list event) :
  store_calls (a ++ b) = (store_calls a ++ store_calls b)%list.
Proof. apply filter_app. Qed.

Lemma outside_calls_app (a b : list event) :
  outside_calls (a ++ b) = (outside_calls a ++ outside_calls b)%list.
Proof. apply filter_app. Qed.

Lemma unprinted_app (a b : list event) :
  unprinted (a ++ b) = (unprinted a ++ unprinted b)%list.
Proof. apply filter_app. Qed.

Lemma unprinted_echo (line : str) (ev : list event) :
  unprinted (Echo line :: ev) = unprinted ev.
Proof. reflexivity. Qed.

Lemma detect_intent_store_calls (X : Externals) (q : str) (w : World X) :
  store_calls (events (detect_intent q w)) = [].
Proof.
  destruct (detect_intent_run q w) as [ev [g [E [Hc _]]]]. cbv zeta in E.
  rewrite E. cbn [events]. now rewrite <- (store_calls_of_outside ev), Hc.
Qed.

Lemma generate_sql_store_calls (X : Externals) (q : str) (w : World X) :
  store_calls (events (generate_sql q w)) = [schema_lookup].
Proof.
  destruct (table_info X (sqlite w) TABLE_NAME) as [e | columns] eqn:H.
  - now rewrite (generate_sql_schema_failure q w H).
  - destruct (generate_sql_calls q w H) as [Hc _]. cbv zeta in Hc.
    now rewrite <- (store_calls_of_outside (events (generate_sql q w))), Hc.
Qed.

Lemma validate_sql_store_calls (X : Externals) (sql : str) (w : World X) :
  (store_calls (events (validate_sql sql w)) = []
   /\ exists e, returned (validate_sql sql w) = inl e)
  \/ store_calls (events (validate_sql sql w))
     = [StoreCall DryRun ("EXPLAIN " ++ sql)].
Proof.
  unfold validate_sql.
  destruct (startswith (lower (strip sql)) "select").
  2:{ left. cbn. eauto. }
  destruct (char_in ";" (but_last (lower (strip sql)))).
  { left. cbn. eauto. }
  right. cbn [negb]. unfold try_except, bind, store_execute.
  destruct (conn_execute X (sqlite w) ("EXPLAIN " ++ sql)) as [d [e | rows]];
    [destruct (is_database_error e)|]; reflexivity.
Qed.

Lemma query_db_store_calls (X : Externals) (query : str) (w : World X) :
  store_calls (events (query_db query w)) = [StoreCall Query query].
Proof.
  unfold query_db, try_except, bind, store_execute.
  destruct (conn_execute X (sqlite w) query) as [d [e | rows]];
    [destruct (is_database_error e)|]; reflexivity.
Qed.

(** All the runs of [ask] and [answer]: a blank question; an intent other than
    [sql]; [generate_sql] raising; a generated statement, whose fate the
    validator and the executor decide. *)
Lemma entry_point_runs (X : Externals) (q : str) (w : World X) :
  (blank q = true
   /\ ask q w = Out [Echo EMPTY_QUESTION_MSG] w (inr tt)
   /\ answer q w = Out [Echo EMPTY_QUESTION_MSG] w (inr tt))
  \/ exists ev1 w1 intent,
       blank q = false
       /\ detect_intent q w = Out ev1 w1 (inr intent)
       /\ (((intent =? "sql") = false
            /\ ask q w = Out (ev1 ++ [Echo (canned intent)]) w1 (inr tt)
            /\ answer q w = Out (ev1 ++ [Echo (canned intent)]) w1 (inr tt))
           \/ (intent = "sql"
               /\ exists ev2 w2 e,
                    generate_sql q w1 = Out ev2 w2 (inl e)
                    /\ ask q w
                       = Out (ev1 ++ ev2
                              ++ [Log EXCEPTION "Ошибка при обработке вопроса";
                                  Echo ("Ошибка: " ++ exn_text e)]) w2 (inr tt)
                    /\ answer q w = ask q w)
           \/ (intent = "sql"
               /\ exists ev2 w2 cand,
                    generate_sql q w1 = Out ev2 w2 (inr cand))).
Proof.
  destruct (blank q) eqn:Hb.
  { left. unfold ask, answer. rewrite strip_empty, Hb. repeat split. }
  right.
  destruct (detect_intent q w) as [ev1 w1 [e | intent]] eqn:Hd.
  { destruct (detect_intent_run q w) as [ev [g [E _]]]. cbv zeta in E.
    rewrite Hd in E. discriminate E. }
  exists ev1, w1, intent. split; [reflexivity|]. split; [reflexivity|].
  destruct (intent =? "sql") eqn:Hi.
  - apply String.eqb_eq in Hi. subst intent. right.
    destruct (generate_sql q w1) as [ev2 w2 [e | cand]] eqn:Hg.
    + left. split; [reflexivity|]. exists ev2, w2, e.
      destruct (sql_branch_generation_raises q w Hb Hd Hg) as [Ha Hb'].
      cbv zeta in *. rewrite Ha, Hb'. repeat split.
    + right. split; [reflexivity|]. now exists ev2, w2, cand.
  - left. destruct (other_branch q w Hb Hd Hi) as [Ha Hb'].
    now rewrite Ha, Hb'.
Qed.

(** X6.  [ask] and [answer] never raise: whatever the model and the store do,
    and whatever the question, the command returns. *)
Theorem entry_points_never_raise (X : Externals) (q : str) (w : World X) :
  returned (ask q w) = inr tt /\ returned (answer q w) = inr tt.
Proof.
  destruct (entry_point_runs q w)
    as [[_ [-> ->]]
       | [ev1 [w1 [intent [Hb [Hd [[_ [-> ->]]
                                  | [[_ [ev2 [w2 [e [_ [Ha ->]]]]]]
                                    | [-> [ev2 [w2 [cand Hg]]]]]]]]]]]].
  - now split.
  - now split.
  - now rewrite Ha.
  - rewrite (ask_sql_branch q w Hb Hd Hg), (answer_sql_branch q w Hb Hd Hg).
    destruct (validate_sql cand w2) as [ev3 w3 [e | b]]; [now split|].
    destruct (query_db cand w3) as [ev4 w4 [e | rows]]; now split.
Qed.

(** X7.  [ask] and [answer] differ in what they print and in nothing else: on
    the same question and the same world they make the same calls to the
    model and to the store, write the same log lines and audit records, in
    the same order, and leave the same world. *)
Theorem ask_answer_differ_in_printing_only
    (X : Externals) (q : str) (w : World X) :
  unprinted (events (ask q w)) = unprinted (events (answer q w))
  /\ world (ask q w) = world (answer q w).
Proof.
  destruct (entry_point_runs q w)
    as [[_ [-> ->]]
       | [ev1 [w1 [intent [Hb [Hd [[_ [-> ->]]
                                  | [[_ [ev2 [w2 [e [_ [Ha ->]]]]]]
                                    | [-> [ev2 [w2 [cand Hg]]]]]]]]]]]].
  - now split.
  - now split.
  - now split.
  - rewrite (ask_sql_branch q w Hb Hd Hg), (answer_sql_branch q w Hb Hd Hg).
    destruct (validate_sql cand w2) as [ev3 w3 [e | b]].
    + cbn [events world]. split; [|reflexivity].
      now rewrite ?unprinted_app, ?unprinted_echo, ?unprinted_app.
    + destruct (query_db cand w3) as [ev4 w4 [e | rows]];
        cbn [events world]; (split; [|reflexivity]);
        now rewrite ?unprinted_app, ?unprinted_echo, ?unprinted_app.
Qed.

(** X8.  A question whose intent is not [sql] costs one model call and
    nothing else: [ask] and [answer] print one line, the smalltalk message,
    the help message or, for any other intent, the unknown-intent message,
    and make no round trip to the store, not even the schema lookup. *)
Theorem other_intent_one_model_call
    (X : Externals) (q : str) (w : World X) (intent : str) :
  blank q = false ->
  returned (detect_intent q w) = inr intent ->
  (intent =? "sql") = false ->
  printed (events (ask q w))
  = [if intent =? "smalltalk" then INFORMAL_MSG
     else if intent =? "help" then HELP_MSG else UNKNOWN_INTENT_MSG]
  /\ printed (events (answer q w)) = printed (events (ask q w))
  /\ outside_calls (events (ask q w))
     = [ModelCall (INTENT_PROMPT_TEMPLATE q) SchemaIntent]
  /\ outside_calls (events (answer q w))
     = [ModelCall (INTENT_PROMPT_TEMPLATE q) SchemaIntent]
  /\ sqlite (world (ask q w)) = sqlite w
  /\ sqlite (world (answer q w)) = sqlite w.
Proof.
  intros Hb Hr Hi.
  destruct (detect_intent_run q w) as [ev [g [E [Hc [Hp _]]]]]. cbv zeta in E.
  rewrite E in Hr. cbn [returned] in Hr. injection Hr as Hintent.
  rewrite Hintent in E. clear Hintent.
  destruct (other_branch q w Hb E Hi) as [-> ->]. cbn [events world sqlite].
  rewrite printed_app, outside_calls_app, Hp, Hc. repeat split.
Qed.

Lemma other_intent_one_model_call_witness :
  blank "Hello, how are you?" = false
  /\ returned (detect_intent "Hello, how are you?" (start greeting_script))
     = inr "greeting"
  /\ printed (events (ask "Hello, how are you?" (start greeting_script)))
     = [UNKNOWN_INTENT_MSG]
  /\ store_calls (events (ask "Hello, how are you?" (start greeting_script)))
     = [].
Proof.
  split; [reflexivity|]. split; [reflexivity|].
  destruct (@other_intent_one_model_call (scripted greeting_script)
              "Hello, how are you?" (start greeting_script) "greeting"
              eq_refl eq_refl eq_refl) as [Hp [_ [Hc _]]].
  split; [exact Hp|].
  now rewrite <- (store_calls_of_outside
                    (events (ask "Hello, how are you?" (start greeting_script)))),
    Hc.
Defined.

(** X9.  On any question [ask] and [answer] make at most three round trips to
    the store, always in this order: the schema lookup, the dry run of a
    statement, the execution of that same statement.  So a query never runs
    before its dry run, and at most one statement is run for a question. *)
Theorem store_round_trips_in_order (X : Externals) (q : str) (w : World X) :
  exists cand,
    prefix_of (store_calls (events (ask q w)))
              [schema_lookup; StoreCall DryRun ("EXPLAIN " ++ cand);
               StoreCall Query cand]
    /\ store_calls (events (answer q w)) = store_calls (events (ask q w)).
Proof.
  destruct (entry_point_runs q w)
    as [[_ [-> ->]]
       | [ev1 [w1 [intent [Hb [Hd [[_ [-> ->]]
                                  | [[_ [ev2 [w2 [e [Hg [Ha ->]]]]]]
                                    | [-> [ev2 [w2 [cand Hg]]]]]]]]]]]].
  - exists "". split; [eexists; reflexivity | reflexivity].
  - exists "". split; [|reflexivity]. cbn [events].
    pose proof (detect_intent_store_calls q w) as H1. rewrite Hd in H1.
    cbn [events] in H1. rewrite store_calls_app, H1. eexists. reflexivity.
  - exists "". split; [|reflexivity]. rewrite Ha. cbn [events].
    pose proof (detect_intent_store_calls q w) as H1. rewrite Hd in H1.
    pose proof (generate_sql_store_calls q w1) as H2. rewrite Hg in H2.
    cbn [events] in H1, H2. rewrite !store_calls_app, H1, H2.
    eexists. reflexivity.
  - exists cand.
    rewrite (ask_sql_branch q w Hb Hd Hg), (answer_sql_branch q w Hb Hd Hg).
    pose proof (detect_intent_store_calls q w) as H1. rewrite Hd in H1.
    pose proof (generate_sql_store_calls q w1) as H2. rewrite Hg in H2.
    cbn [events] in H1, H2.
    destruct (validate_sql_store_calls cand w2) as [[H3 [e He]] | H3];
      destruct (validate_sql cand w2) as [ev3 w3 [e' | b]];
      cbn [events returned] in *; try discriminate He.
    + rewrite !store_calls_app. cbn [store_calls filter is_store_call].
      fold (store_calls (ev3 ++ [Echo INVALID_SQL_MSG])).
      rewrite !store_calls_app, H1, H2, H3. split; [eexists|]; reflexivity.
    + rewrite !store_calls_app. cbn [store_calls filter is_store_call].
      fold (store_calls (ev3 ++ [Echo INVALID_SQL_MSG])).
      rewrite !store_calls_app, H1, H2, H3. split; [eexists|]; reflexivity.
    + pose proof (query_db_store_calls cand w3) as H4.
      destruct (query_db cand w3) as [ev4 w4 [e | rows]]; cbn [events] in *;
        rewrite !store_calls_app; cbn [store_calls filter is_store_call];
        match goal with
        | |- context [filter is_store_call (ev3 ++ ?l)] =>
            fold (store_calls (ev3 ++ l))
        end;
        rewrite !store_calls_app, H1, H2, H3, H4;
        (split; [exists []|]; reflexivity).
Qed.

Lemma query_db_returned (X : Externals) (query : str) (w : World X) :
  returned (query_db query w) = snd (conn_execute X (sqlite w) query).
Proof.
  unfold query_db, try_except, bind, store_execute.
  destruct (conn_execute X (sqlite w) query) as [d [e | rows]];
    [destruct (is_database_error e)|]; reflexivity.
Qed.

(** X10.  When a statement passed the validator and the store then refuses to
    run it, [ask] and [answer] do not stop on the exception: they log it and
    print [Ошибка: ] followed by the text of the exception the store raised,
    as it is.  [ask] has printed the statement before; no result line is
    printed. *)
Theorem execution_failure_is_reported
    (X : Externals) (q : str) (w w1 w2 w3 w4 : World X)
    ev1 ev2 ev3 ev4 cand b e :
  blank q = false ->
  detect_intent q w = Out ev1 w1 (inr "sql") ->
  generate_sql q w1 = Out ev2 w2 (inr cand) ->
  validate_sql cand w2 = Out ev3 w3 (inr b) ->
  query_db cand w3 = Out ev4 w4 (inl e) ->
  snd (conn_execute X (sqlite w3) cand) = inl e
  /\ printed (events (ask q w)) = ["SQL: " ++ cand; "Ошибка: " ++ exn_text e]
  /\ printed (events (answer q w)) = ["Ошибка: " ++ exn_text e]
  /\ In (Log EXCEPTION "Ошибка при обработке вопроса") (events (ask q w))
  /\ In (Log EXCEPTION "Ошибка при обработке вопроса") (events (answer q w)).
Proof.
  intros Hb Hd Hg Hv Hq.
  split.
  { rewrite <- query_db_returned, Hq. reflexivity. }
  rewrite (ask_sql_branch q w Hb Hd Hg), (answer_sql_branch q w Hb Hd Hg).
  rewrite Hv, Hq. cbn [events].
  destruct (detect_intent_run q w) as [ev [g [E [_ [Hp1 _]]]]]. cbv zeta in E.
  rewrite Hd in E. injection E as <- _ _.
  destruct (generate_sql_quiet _ _ Hg) as [[Hp2 _] _].
  destruct (validate_sql_events cand w2) as [Hp3 _]. rewrite Hv in Hp3.
  destruct (query_db_events cand w3) as [Hp4 _]. rewrite Hq in Hp4.
  cbn [events] in *.
  rewrite !printed_app. cbn [printed flat_map].
  rewrite !printed_app, Hp1, Hp2, Hp3, Hp4.
  split; [reflexivity|]. split; [reflexivity|].
  split; repeat (rewrite in_app_iff || cbn [In]); auto 10.
Qed.

Lemma execution_failure_is_reported_witness :
  blank "What is the average rating?" = false
  /\ printed (events (@ask drifting "What is the average rating?"
                           (Build_World drifting tt tt)))
     = ["SQL: SELECT Rating FROM freelancer_earnings";
        "Ошибка: no such column: Rating"]
  /\ printed (events (@answer drifting "What is the average rating?"
                              (Build_World drifting tt tt)))
     = ["Ошибка: no such column: Rating"].
Proof.
  split; [reflexivity|].
  pose (q := "What is the average rating?").
  pose (w := Build_World drifting tt tt).
  pose (cand := "SELECT Rating FROM freelancer_earnings").
  pose (r1 := detect_intent q w).
  pose (r2 := generate_sql q (world r1)).
  pose (r3 := validate_sql cand (world r2)).
  pose (r4 := query_db cand (world r3)).
  destruct (@execution_failure_is_reported drifting q w
              (world r1) (world r2) (world r3) (world r4)
              (events r1) (events r2) (events r3) (events r4) cand true
              (Exn DatabaseError "no such column: Rating")
              eq_refl eq_refl eq_refl eq_refl eq_refl)
    as [_ [Ha [Hb _]]].
  split; [exact Ha | exact Hb].
Defined.

(** X11.  When the columns of the table cannot be read, a question classified
    [sql] ends without any statement: [ask] and [answer] make the intent call
    and the schema lookup and nothing more, neither the model call for the
    statement nor a dry run nor a query, and print [Ошибка: ] followed by
    the text of the exception of the lookup. *)
Theorem schema_failure_is_reported
    (X : Externals) (q : str) (w : World X) (e : exn) :
  blank q = false ->
  returned (detect_intent q w) = inr "sql" ->
  table_info X (sqlite w) TABLE_NAME = inl e ->
  printed (events (ask q w)) = ["Ошибка: " ++ exn_text e]
  /\ outside_calls (events (ask q w))
     = [ModelCall (INTENT_PROMPT_TEMPLATE q) SchemaIntent; schema_lookup]
  /\ answer q w = ask q w.
Proof.
  intros Hb Hr Ht.
  destruct (detect_intent_run q w) as [ev [g [E [Hc [Hp _]]]]]. cbv zeta in E.
  rewrite E in Hr. cbn [returned] in Hr. injection Hr as Hintent.
  rewrite Hintent in E. clear Hintent.
  assert (Hg : generate_sql q {| gemini := g; sqlite := sqlite w |}
               = Out [schema_lookup;
                      Log EXCEPTION "Ошибка получения схемы таблицы"]
                     {| gemini := g; sqlite := sqlite w |} (inl e))
    by (apply generate_sql_schema_failure; exact Ht).
  destruct (sql_branch_generation_raises q w Hb E Hg) as [Ha Hb'].
  cbv zeta in *. rewrite Ha, Hb'. cbn [events].
  rewrite printed_app, outside_calls_app, Hp, Hc. repeat split.
Qed.

Lemma schema_failure_is_reported_witness :
  blank "How many freelancers were rehired?" = false
  /\ returned (detect_intent "How many freelancers were rehired?"
                             (start no_schema_script)) = inr "sql"
  /\ printed (events (ask "How many freelancers were rehired?"
                          (start no_schema_script)))
     = ["Ошибка: unable to open database file"].
Proof.
  split; [reflexivity|]. split; [reflexivity|].
  exact (proj1 (@schema_failure_is_reported (scripted no_schema_script)
                  "How many freelancers were rehired?" (start no_schema_script)
                  (Exn DatabaseError "unable to open database file")
                  eq_refl eq_refl eq_refl)).
Defined.

(** ** The command [demo] *)




(** ** The table [init_db] creates *)

Lemma id_at_end_spec (s : str) :
  id_at_end s = true
  <-> exists a b,
        is_i a = true /\ is_d b = true
        /\ (s = String a (String b "") \/ s = String a (String b LF)).
Proof.
  split.
  - destruct s as [|a [|b [|c [|d r]]]]; cbn; try discriminate.
    + intro H. apply andb_true_iff in H as [Ha Hb]. exists a, b. auto.
    + intro H. apply andb_true_iff in H as [H Hc].
      apply andb_true_iff in H as [Ha Hb]. apply Ascii.eqb_eq in Hc. subst c.
      exists a, b. auto.
  - intros [a [b [Ha [Hb [-> | ->]]]]]; cbn; rewrite Ha, Hb; reflexivity.
Qed.

(** The test of [init_db] on a column name, read on the name. *)
Lemma re_search_id_end_spec (col : str) :
  re_search_id_end col = true <-> ends_in_id col.
Proof.
  split.
  - induction col as [|c r IH]; [discriminate|].
    cbn [re_search_id_end]. intro H. apply orb_true_iff in H as [H | H].
    + apply id_at_end_spec in H as [a [b [Ha [Hb H]]]].
      exists "", a, b. auto.
    + destruct (IH H) as [p [a [b [Ha [Hb [-> | ->]]]]]];
        exists (String c p), a, b; auto.
  - intros [p [a [b [Ha [Hb H]]]]]. revert col H.
    induction p as [|c p IH]; intros col H.
    + assert (id_at_end col = true) as Hid
        by (apply id_at_end_spec; exists a, b; auto).
      destruct col; cbn [re_search_id_end]; now rewrite Hid.
    + assert (exists r, col = String c r /\ re_search_id_end r = true)
        as [r [-> Hr]].
      { destruct H as [-> | ->]; eexists; (split; [reflexivity|]);
          apply IH; auto. }
      cbn [re_search_id_end]. rewrite Hr. apply orb_true_r.
Qed.

Lemma init_db_columns_after_key (items : list (str * str)) :
  init_db_columns _get_type_map true items = map plain_column items.
Proof.
  induction items as [|[col dtype] rest IH]; [reflexivity|].
  cbn [init_db_columns negb andb map]. now rewrite IH.
Qed.

Lemma init_db_columns_before_key (pre rest : list (str * str)) :
  (forall c, In c pre -> ~ ends_in_id (fst c)) ->
  init_db_columns _get_type_map false (pre ++ rest)
  = (map plain_column pre ++ init_db_columns _get_type_map false rest)%list.
Proof.
  induction pre as [|[col dtype] pre IH]; intro H; [reflexivity|].
  cbn [app init_db_columns negb andb map].
  destruct (re_search_id_end col) eqn:E.
  - exfalso. apply (H (col, dtype)); [now left|].
    now apply re_search_id_end_spec.
  - rewrite IH by (intros c Hc; apply H; now right). reflexivity.
Qed.

(** X13.  In the table [init_db] creates, the primary key is the first column
    of the CSV file whose name ends in [id], in any letter case (a final line
    feed after it is let through, as [$] does): that column
    and no other is declared [PRIMARY KEY], also when later names end in
    [id] too.  When no name ends in [id] the table has no primary key. *)
Theorem init_db_first_id_column_is_key (items : list (str * str)) :
  (forall pre col dtype post,
     items = (pre ++ (col, dtype) :: post)%list ->
     (forall c, In c pre -> ~ ends_in_id (fst c)) ->
     ends_in_id col ->
     init_db_columns _get_type_map false items
     = (map plain_column pre
        ++ (col ++ " " ++ dict_get _get_type_map dtype "TEXT"
            ++ " PRIMARY KEY")%string
           :: map plain_column post)%list)
  /\ ((forall c, In c items -> ~ ends_in_id (fst c)) ->
      init_db_columns _get_type_map false items = map plain_column items).
Proof.
  split.
  - intros pre col dtype post -> Hpre Hcol.
    rewrite (init_db_columns_before_key _ _ Hpre).
    cbn [init_db_columns negb andb].
    apply re_search_id_end_spec in Hcol. rewrite Hcol.
    now rewrite init_db_columns_after_key.
  - intro H.
    rewrite <- (app_nil_r items) at 1.
    rewrite (init_db_columns_before_key _ _ H). cbn. apply app_nil_r.
Qed.

Lemma ends_in_id_Freelancer_ID : ends_in_id "Freelancer_ID".
Proof. apply re_search_id_end_spec. reflexivity. Defined.

Lemma not_ends_in_id_Job_Category :
  forall c, In c [("Job_Category", "object")] -> ~ ends_in_id (fst c).
Proof.
  intros c [<- | []] H. apply re_search_id_end_spec in H. discriminate H.
Defined.

Lemma init_db_first_id_column_is_key_witness :
  init_db_columns _get_type_map false (dtypes sample_frame)
  = ["Job_Category TEXT"; "Freelancer_ID INTEGER PRIMARY KEY";
     "Earnings_USD REAL"; "Client_id INTEGER"; "Rehired INTEGER";
     "Joined TEXT"].
Proof.
  exact (proj1 (init_db_first_id_column_is_key (dtypes sample_frame))
               [("Job_Category", "object")] "Freelancer_ID" "int64"
               [("Earnings_USD", "float64"); ("Client_id", "int64");
                ("Rehired", "bool"); ("Joined", "datetime64[ns]")]
               eq_refl not_ends_in_id_Job_Category ends_in_id_Freelancer_ID).
Defined.

Lemma sql_type_of_dtype (dtype : str) :
  In (dict_get _get_type_map dtype "TEXT") ["INTEGER"; "REAL"; "TEXT"].
Proof.
  cbn [dict_get _get_type_map].
  destruct ("int64" =? dtype); [cbn; tauto|].
  destruct ("float64" =? dtype); [cbn; tauto|].
  destruct ("object" =? dtype); [cbn; tauto|].
  destruct ("bool" =? dtype); cbn; tauto.
Qed.

(** X14.  [init_db] declares one column for each column of the CSV file, in
    the order of the file and under the name of the file, and gives it one
    of the three types [INTEGER], [REAL] and [TEXT]; a dtype that the type map
    does not list gets [TEXT]. *)
Theorem init_db_declares_every_column (pk_set : bool) (items : list (str * str)) :
  Forall2
    (fun item decl =>
       exists sql_type,
         In sql_type ["INTEGER"; "REAL"; "TEXT"]
         /\ (~ In (snd item) ["int64"; "float64"; "object"; "bool"] ->
             sql_type = "TEXT")
         /\ (decl = fst item ++ " " ++ sql_type
             \/ decl = fst item ++ " " ++ sql_type ++ " PRIMARY KEY"))
    items (init_db_columns _get_type_map pk_set items).
Proof.
  revert pk_set.
  induction items as [|[col dtype] rest IH]; intro pk_set; [constructor|].
  assert (Hty : ~ In dtype ["int64"; "float64"; "object"; "bool"] ->
                dict_get _get_type_map dtype "TEXT" = "TEXT").
  { intro Hn. cbn [dict_get _get_type_map].
    destruct ("int64" =? dtype) eqn:E1;
      [apply String.eqb_eq in E1; exfalso; apply Hn; cbn; tauto|].
    destruct ("float64" =? dtype) eqn:E2;
      [apply String.eqb_eq in E2; exfalso; apply Hn; cbn; tauto|].
    destruct ("object" =? dtype) eqn:E3;
      [apply String.eqb_eq in E3; exfalso; apply Hn; cbn; tauto|].
    destruct ("bool" =? dtype) eqn:E4;
      [apply String.eqb_eq in E4; exfalso; apply Hn; cbn; tauto|].
    reflexivity. }
  cbn [init_db_columns].
  destruct (negb pk_set && re_search_id_end col); constructor;
    try apply IH;
    exists (dict_get _get_type_map dtype "TEXT");
    (split; [apply sql_type_of_dtype|]); (split; [exact Hty|]); auto.
Qed.

Lemma init_db_declares_every_column_witness :
  ~ In "datetime64[ns]" ["int64"; "float64"; "object"; "bool"]
  /\ exists sql_type,
       sql_type = "TEXT"
       /\ init_db_columns _get_type_map false [("Joined", "datetime64[ns]")]
          = ["Joined" ++ " " ++ sql_type].
Proof.
  assert (Hn : ~ In "datetime64[ns]" ["int64"; "float64"; "object"; "bool"])
    by (cbn; intros [H | [H | [H | [H | []]]]]; discriminate H).
  split; [exact Hn|].
  pose proof (init_db_declares_every_column
                false [("Joined", "datetime64[ns]")]) as H.
  inversion H as [|item decl items decls [sql_type [_ [Hty _]]] _]. subst.
  exists sql_type. split; [exact (Hty Hn)|].
  rewrite (Hty Hn). reflexivity.
Defined.

(** ** The runs of [init_db], [import_csv] and [init] *)

Lemma prefix_of_refl {A} (l : list A) : prefix_of l l.
Proof. exists []. apply app_nil_r. Qed.

Lemma prefix_of_nil {A} (l : list A) : prefix_of [] l.
Proof. now exists l. Qed.

Lemma prefix_of_cons {A} (x : A) (l full : list A) :
  prefix_of l full -> prefix_of (x :: l) (x :: full).
Proof. intros [rest <-]. now exists rest. Qed.

Lemma prefix_of_app {A} (a l full : list A) :
  prefix_of l full -> prefix_of (a ++ l) (a ++ full).
Proof. intros [rest <-]. exists rest. now rewrite app_assoc. Qed.

Lemma prefix_of_grow {A} (l full more : list A) :
  prefix_of l full -> prefix_of l (full ++ more).
Proof. intros [rest <-]. exists (rest ++ more)%list. now rewrite app_assoc. Qed.

(** One run of [init_db]. *)
Lemma init_db_run (P : Ingestion) (w : Disk P) :
  match read_csv P (Some MAX_ROWS_PREVIEW) with
  | inl e =>
      init_db w
      = Out [Log EXCEPTION "Ошибка чтения CSV для инициализации БД"]
            {| db := db w;
               journal := journal w ++ [ReadCsv (Some MAX_ROWS_PREVIEW)] |}
            (inl e)
  | inr df =>
      exists ops,
        prefix_of ops [Connect; Execute (create_statement df) []; Commit]
        /\ journal (world (init_db w))
           = (journal w ++ ReadCsv (Some MAX_ROWS_PREVIEW) :: ops)%list
        /\ printed (events (init_db w)) = []
        /\ (returned (init_db w) = inr tt ->
            ops = [Connect; Execute (create_statement df) []; Commit])
  end.
Proof.
  unfold init_db, try_except, bind, pd_read_csv.
  destruct (read_csv P (Some MAX_ROWS_PREVIEW)) as [e | df]; [reflexivity|].
  cbn [ret]. fold (create_statement df).
  unfold aiosqlite_connect, db_execute, db_commit. cbn [db journal].
  destruct (connect P (db w)) as [e |].
  { exists [Connect]. split; [apply prefix_of_cons, prefix_of_nil|].
    cbn. rewrite <- app_assoc. repeat split; congruence. }
  destruct (execute P (db w) (create_statement df) []) as [d [e |]].
  { exists [Connect; Execute (create_statement df) []].
    split; [do 2 apply prefix_of_cons; apply prefix_of_nil|].
    cbn. rewrite <- !app_assoc. repeat split; congruence. }
  cbn [db journal].
  destruct (commit P d) as [d' [e |]];
    exists [Connect; Execute (create_statement df) []; Commit];
    (split; [apply prefix_of_refl|]);
    cbn; rewrite <- !app_assoc; repeat split.
Qed.

(** X15.  [init_db] reads the first rows of the CSV file and then asks the
    connection for at most three things, in this order: to connect, to run
    one statement, to commit.  The statement is a
    [CREATE TABLE IF NOT EXISTS] for [freelancer_earnings], so an existing
    table is never dropped or emptied by it.  When the file cannot be read,
    nothing is asked of the connection and the exception of the reader is
    raised; [init_db] prints nothing. *)
Theorem init_db_only_creates (P : Ingestion) (w : Disk P) :
  exists ops,
    journal (world (init_db w))
    = (journal w ++ ReadCsv (Some MAX_ROWS_PREVIEW) :: ops)%list
    /\ printed (events (init_db w)) = []
    /\ match read_csv P (Some MAX_ROWS_PREVIEW) with
       | inl e => ops = [] /\ returned (init_db w) = inl e
       | inr df =>
           prefix_of ops [Connect; Execute (create_statement df) []; Commit]
           /\ (returned (init_db w) = inr tt ->
               ops = [Connect; Execute (create_statement df) []; Commit])
           /\ startswith (create_statement df)
                         "CREATE TABLE IF NOT EXISTS freelancer_earnings ("
              = true
       end.
Proof.
  pose proof (init_db_run w) as H.
  destruct (read_csv P (Some MAX_ROWS_PREVIEW)) as [e | df].
  - rewrite H. exists []. repeat split.
  - destruct H as [ops [Hp [Hj [Hpr Hr]]]]. exists ops. repeat split; auto.
Qed.

Lemma init_db_only_creates_witness :
  returned (init_db (fresh (csv_job (inr sample_frame) 1000) 0)) = inr tt
  /\ journal (world (init_db (fresh (csv_job (inr sample_frame) 1000) 0)))
     = [ReadCsv (Some 100); Connect;
        Execute (create_statement sample_frame) []; Commit].
Proof.
  split; [reflexivity|].
  destruct (init_db_only_creates (fresh (csv_job (inr sample_frame) 1000) 0))
    as [ops [Hj [_ [_ [Hr _]]]]].
  rewrite Hj, (Hr eq_refl). reflexivity.
Defined.

(** The loop of [import_csv]: the rows go in one by one, in the order of the
    file, and the loop stops at the first row the connection refuses. *)
Lemma insert_rows_run (P : Ingestion) (rows : list (list (Cell P))) (w : Disk P) :
  exists done d r,
    for_each rows
      (fun row : list (Cell P) =>
         db_execute ("INSERT INTO " ++ TABLE_NAME ++ " VALUES ("
                     ++ join ", " (repeat "?" (length row)) ++ ")")
                    row) w
    = Out [] {| db := d; journal := journal w ++ done |} r
    /\ prefix_of done
         (map (fun row => Execute (insert_statement (length row)) row) rows)
    /\ (r = inr tt ->
        done = map (fun row => Execute (insert_statement (length row)) row) rows).
Proof.
  revert w.
  induction rows as [|row rows IH]; intro w.
  - exists [], (db w), (inr tt). cbn. rewrite app_nil_r.
    destruct w. split; [reflexivity|]. split; [apply prefix_of_nil | reflexivity].
  - cbn [for_each]. unfold bind. unfold db_execute at 1.
    fold (insert_statement (length row)).
    destruct (execute P (db w) (insert_statement (length row)) row)
      as [d [e |]].
    + exists [Execute (insert_statement (length row)) row], d, (inl e).
      split; [reflexivity|].
      split; [apply prefix_of_cons, prefix_of_nil | discriminate].
    + destruct (IH {| db := d;
                      journal := journal w
                                 ++ [Execute (insert_statement (length row)) row] |})
        as [done [d' [r [-> [Hp Hr]]]]].
      exists (Execute (insert_statement (length row)) row :: done), d', r.
      cbn [journal]. rewrite <- app_assoc.
      split; [reflexivity|].
      split; [now apply prefix_of_cons|].
      intro H. now rewrite (Hr H).
Qed.

(** One run of [import_csv]. *)
Lemma import_csv_run (P : Ingestion) (w : Disk P) :
  match read_csv P None with
  | inl e =>
      import_csv w
      = Out [Log EXCEPTION "Ошибка чтения CSV для импорта"]
            {| db := db w; journal := journal w ++ [ReadCsv None] |}
            (inl e)
  | inr df =>
      exists ops ev d r,
        import_csv w
        = Out ev {| db := d; journal := journal w ++ ReadCsv None :: ops |} r
        /\ prefix_of ops (import_plan df)
        /\ printed ev = []
        /\ (r = inr tt -> ops = import_plan df)
  end.
Proof.
  unfold import_csv.
  set (body := fun row : list (Cell P) => db_execute _ row).
  unfold try_except, bind, pd_read_csv, aiosqlite_connect, db_execute,
    db_commit.
  destruct (read_csv P None) as [e | df]; [reflexivity|].
  cbn [db journal].
  destruct (connect P (db w)) as [e |].
  { exists [Connect]. do 3 eexists. cbn. rewrite <- app_assoc.
    split; [reflexivity|].
    split; [apply prefix_of_cons, prefix_of_nil|]. split; [reflexivity|].
    discriminate. }
  destruct (execute P (db w) ("DELETE FROM " ++ TABLE_NAME) []) as [d [e |]].
  { exists [Connect; Execute ("DELETE FROM " ++ TABLE_NAME) []]. do 3 eexists.
    cbn. rewrite <- !app_assoc.
    split; [reflexivity|].
    split; [do 2 apply prefix_of_cons; apply prefix_of_nil|].
    split; [reflexivity | discriminate]. }
  cbn [db journal].
  destruct (commit P d) as [d1 [e |]].
  { exists [Connect; Execute ("DELETE FROM " ++ TABLE_NAME) []; Commit].
    do 3 eexists. cbn. rewrite <- !app_assoc.
    split; [reflexivity|].
    split; [do 3 apply prefix_of_cons; apply prefix_of_nil|].
    split; [reflexivity | discriminate]. }
  subst body.
  match goal with
  | |- context [for_each (iterrows df) _ ?w0] =>
      destruct (insert_rows_run (iterrows df) w0) as [done [d2 [r [-> [Hp Hr]]]]]
  end.
  cbn [db journal].
  destruct r as [e | []].
  { exists (Connect :: Execute ("DELETE FROM " ++ TABLE_NAME) [] :: Commit
            :: done). do 3 eexists.
    cbn. rewrite <- !app_assoc. cbn.
    split; [reflexivity|].
    split; [do 3 apply prefix_of_cons; now apply prefix_of_grow|].
    split; [reflexivity | discriminate]. }
  rewrite (Hr eq_refl). clear Hp Hr done.
  destruct (commit P d2) as [d3 [e |]];
    exists (import_plan df); do 3 eexists;
    cbn; rewrite <- !app_assoc; cbn; rewrite <- ?app_assoc;
    (split; [reflexivity|]); (split; [apply prefix_of_refl|]);
    (split; [reflexivity|]); congruence.
Qed.

(** X16.  [import_csv] replaces the content of the table in a fixed order: it
    connects, deletes every row of [freelancer_earnings] and commits, then
    inserts the rows of the CSV file one by one, in the order of the file,
    each with one [INSERT] whose parameters are the values of the row, and
    commits again.  It stops at the first of these the connection refuses;
    the commit of the deletion is asked before the first insert, and a run
    that returns has done all of them.  It prints nothing. *)
Theorem import_csv_replaces_rows
    (P : Ingestion) (w : Disk P) (df : DataFrame (Cell P)) :
  read_csv P None = inr df ->
  exists ops,
    journal (world (import_csv w)) = (journal w ++ ReadCsv None :: ops)%list
    /\ prefix_of ops (import_plan df)
    /\ (returned (import_csv w) = inr tt -> ops = import_plan df)
    /\ printed (events (import_csv w)) = [].
Proof.
  intro H. pose proof (import_csv_run w) as Hrun. rewrite H in Hrun.
  destruct Hrun as [ops [ev [d [r [-> [Hp [Hpr Hr]]]]]]].
  exists ops. cbn [world journal returned events]. repeat split; auto.
Qed.

Lemma import_csv_replaces_rows_witness :
  read_csv (csv_job (inr sample_frame) 2) None = inr sample_frame
  /\ journal (world (import_csv (fresh (csv_job (inr sample_frame) 1000) 0)))
     = ReadCsv None :: import_plan sample_frame
  /\ statements
       (journal (world (import_csv (fresh (csv_job (inr sample_frame) 1) 0))))
     = ["DELETE FROM freelancer_earnings";
        "INSERT INTO freelancer_earnings VALUES (?, ?, ?, ?, ?, ?)"].
Proof.
  split; [reflexivity|].
  destruct (@import_csv_replaces_rows (csv_job (inr sample_frame) 1000)
              (fresh (csv_job (inr sample_frame) 1000) 0) sample_frame eq_refl)
    as [ops [Hj [_ [Hr _]]]].
  split; [|reflexivity].
  rewrite Hj, (Hr eq_refl). reflexivity.
Defined.

Lemma count_char_app (c : ascii) (a b : str) :
  count_char c (a ++ b) = count_char c a + count_char c b.
Proof.
  induction a as [|d a IH]; cbn; [reflexivity|]. rewrite IH. lia.
Qed.

Lemma placeholders_count (n : nat) :
  count_char "?" (join ", " (repeat "?" n)) = n.
Proof.
  induction n as [|n IH]; [reflexivity|].
  destruct n as [|n]; [reflexivity|].
  change (join ", " (repeat "?" (S (S n))))
    with ("?" ++ ", " ++ join ", " (repeat "?" (S n))).
  rewrite !count_char_app, IH. reflexivity.
Qed.

(** X17.  The [INSERT] statement [import_csv] writes for a row has exactly as
    many placeholders as the row has values, whatever the width of the file,
    so the number of parameters always fits the statement; for a row
    without values it is [INSERT INTO freelancer_earnings VALUES ()]. *)
Theorem insert_statement_placeholders (n : nat) :
  count_char "?" (insert_statement n) = n
  /\ insert_statement 0 = "INSERT INTO freelancer_earnings VALUES ()".
Proof.
  split; [|reflexivity].
  unfold insert_statement.
  rewrite !count_char_app, placeholders_count.
  unfold TABLE_NAME. cbn. lia.
Qed.

Lemma init_db_prints_nothing (P : Ingestion) (w : Disk P) :
  printed (events (init_db w)) = [].
Proof.
  pose proof (init_db_run w) as H.
  destruct (read_csv P (Some MAX_ROWS_PREVIEW)) as [e | df].
  - now rewrite H.
  - now destruct H as [ops [_ [_ [H _]]]].
Qed.

Lemma import_csv_prints_nothing (P : Ingestion) (w : Disk P) :
  printed (events (import_csv w)) = [].
Proof.
  pose proof (import_csv_run w) as H.
  destruct (read_csv P None) as [e | df].
  - now rewrite H.
  - now destruct H as [ops [ev [d [r [-> [_ [H _]]]]]]].
Qed.

(** X18.  The command [init] never raises and prints exactly one line.
    [import_csv] is run only when [init_db] returned; the line is the success
    message when both returned and otherwise [Ошибка: ] followed by the text
    of the exception that stopped the first of them to fail. *)
Theorem init_reports_once (P : Ingestion) (w : Disk P) :
  returned (init w) = inr tt
  /\ match returned (init_db w) with
     | inl e =>
         printed (events (init w)) = ["Ошибка: " ++ exn_text e]
         /\ world (init w) = world (init_db w)
     | inr _ =>
         world (init w) = world (import_csv (world (init_db w)))
         /\ match returned (import_csv (world (init_db w))) with
            | inl e => printed (events (init w)) = ["Ошибка: " ++ exn_text e]
            | inr _ =>
                printed (events (init w))
                = ["База данных инициализирована и данные импортированы."]
            end
     end.
Proof.
  unfold init, try_except, bind.
  pose proof (init_db_prints_nothing w) as H1.
  destruct (init_db w) as [ev1 w1 [e | []]]; cbn [events] in H1; cbn.
  { split; [reflexivity|]. rewrite printed_app, H1. split; reflexivity. }
  pose proof (import_csv_prints_nothing w1) as H2.
  destruct (import_csv w1) as [ev2 w2 [e | []]]; cbn [events] in H2; cbn;
    (split; [reflexivity|]); (split; [reflexivity|]);
    rewrite !printed_app, H1, H2; reflexivity.
Qed.

(** ** The textual rules and the shape of the statement *)

Lemma lstrip_of_blank (p : str) : blank p = true -> lstrip p = "".
Proof.
  induction p as [|c p IH]; cbn; [reflexivity|].
  intro H. apply andb_true_iff in H as [Hc Hp]. rewrite Hc. now apply IH.
Qed.

Lemma lstrip_pad (p s : str) : blank p = true -> lstrip (p ++ s) = lstrip s.
Proof.
  induction p as [|c p IH]; cbn; [reflexivity|].
  intro H. apply andb_true_iff in H as [Hc Hp]. rewrite Hc. now apply IH.
Qed.

Lemma rstrip_pad (s p : str) : blank p = true -> rstrip (s ++ p) = rstrip s.
Proof.
  intro H. induction s as [|c r IH]; cbn.
  - pose proof (rstrip_empty p) as E. rewrite H in E.
    now destruct (rstrip p).
  - now rewrite IH.
Qed.

Lemma strip_pad_right (s p : str) :
  blank p = true -> rstrip (lstrip (s ++ p)) = rstrip (lstrip s).
Proof.
  intro H. induction s as [|c r IH]; cbn.
  - now rewrite (lstrip_of_blank _ H).
  - destruct (isspace c); [exact IH|].
    change (String c (r ++ p)) with (String c r ++ p).
    now apply rstrip_pad.
Qed.

(** Whitespace around a string does not change what [strip] makes of it. *)
Lemma strip_pad (p1 s p2 : str) :
  blank p1 = true -> blank p2 = true -> strip (p1 ++ s ++ p2) = strip s.
Proof.
  intros H1 H2. unfold strip. rewrite (lstrip_pad _ _ H1).
  now apply strip_pad_right.
Qed.

(** [validate_sql] stops before the store exactly when one of its two
    textual rules refuses the statement. *)
Lemma validate_sql_textual (X : Externals) (sql : str) (w : World X) :
  let refused :=
    negb (startswith (lower (strip sql)) "select")
    || char_in ";" (but_last (lower (strip sql))) in
  (refused = true ->
   store_calls (events (validate_sql sql w)) = []
   /\ returned (validate_sql sql w)
      = inl (Exn ValueError
               (if startswith (lower (strip sql)) "select"
                then "Разрешено только одно SQL-выражение!"
                else "Разрешены только SELECT-запросы!")))
  /\ (refused = false ->
      store_calls (events (validate_sql sql w))
      = [StoreCall DryRun ("EXPLAIN " ++ sql)]).
Proof.
  cbv zeta. unfold validate_sql.
  destruct (startswith (lower (strip sql)) "select"); cbn [negb orb].
  2:{ split; [intros _; now cbn | discriminate]. }
  destruct (char_in ";" (but_last (lower (strip sql)))).
  { split; [intros _; now cbn | discriminate]. }
  split; [discriminate|]. intros _.
  unfold try_except, bind, store_execute.
  destruct (conn_execute X (sqlite w) ("EXPLAIN " ++ sql)) as [d [e | rows]];
    [destruct (is_database_error e)|]; reflexivity.
Qed.

(** X19.  The two textual rules of [validate_sql] look at the statement
    through trimming and lower-casing only: putting whitespace before and
    after a statement, or lower-casing it, changes neither whether it is
    refused before the store is asked nor the [ValueError] it is refused
    with.  A statement that passes both rules is sent to the dry run with its
    own letters and padding. *)
Theorem validate_sql_ignores_case_and_padding
    (X : Externals) (sql pad1 pad2 : str) (w : World X) :
  blank pad1 = true ->
  blank pad2 = true ->
  forall variant,
    variant = pad1 ++ sql ++ pad2 \/ variant = lower sql ->
    (store_calls (events (validate_sql sql w)) = []
     /\ store_calls (events (validate_sql variant w)) = []
     /\ returned (validate_sql variant w) = returned (validate_sql sql w))
    \/ (store_calls (events (validate_sql sql w))
        = [StoreCall DryRun ("EXPLAIN " ++ sql)]
        /\ store_calls (events (validate_sql variant w))
           = [StoreCall DryRun ("EXPLAIN " ++ variant)]).
Proof.
  intros H1 H2 variant Hv.
  assert (E : lower (strip variant) = lower (strip sql)).
  { destruct Hv as [-> | ->].
    - now rewrite strip_pad.
    - now rewrite strip_lower, lower_idempotent. }
  pose proof (validate_sql_textual sql w) as [Hr Ha].
  pose proof (validate_sql_textual variant w) as [Hr' Ha'].
  cbv zeta in *. rewrite E in Hr', Ha'.
  destruct (negb (startswith (lower (strip sql)) "select")
            || char_in ";" (but_last (lower (strip sql)))).
  - left. destruct (Hr eq_refl) as [-> ->]. destruct (Hr' eq_refl) as [-> ->].
    repeat split.
  - right. now rewrite (Ha eq_refl), (Ha' eq_refl).
Qed.

Lemma validate_sql_ignores_case_and_padding_witness :
  blank "  " = true
  /\ blank LF = true
  /\ returned (validate_sql ("  " ++ "DROP TABLE freelancer_earnings" ++ LF)
                            (start drop_script))
     = returned (validate_sql "DROP TABLE freelancer_earnings" (start drop_script)).
Proof.
  split; [reflexivity|]. split; [reflexivity|].
  destruct (@validate_sql_ignores_case_and_padding (scripted drop_script)
              "DROP TABLE freelancer_earnings" "  " LF (start drop_script)
              eq_refl eq_refl
              ("  " ++ "DROP TABLE freelancer_earnings" ++ LF)
              (or_introl eq_refl))
    as [[_ [_ H]] | [H _]]; [exact H | discriminate H].
Defined.
